(** * NeuronSimulator: a leaky integrate-and-fire neuron driven by UI events

    Shallow embedding of [src/components/NeuronSimulator.tsx].

    The component is a React function component.  Its simulation state lives
    in [useState] cells, three [useRef] cells and one [useMemo] cell; it is
    changed by four callbacks ([sendSpike], [simulationLoop],
    [resetSimulation], [handleCustomSpikeInput]) and by the slider and input
    [onChange] handlers.  The embedding keeps that shape:

    - [Component] holds every hook cell the simulation reads or writes;
    - each callback is a function [Component -> Component] that applies the
      state updaters in the order the source queues them.  A functional
      updater [(prev) => ...] reads the latest queued value of its own
      cell, while [membranePotentialRef.current] and [thresholdRef.current]
      are separate cells that only the effects of lines 47-53 write;
    - [render] is the re-render that follows a callback: it re-evaluates the
      [useMemo] of line 56 when its dependency [time] changed and then runs
      the two [useEffect]s that copy state into the refs;
    - [step] is one event: the callback followed by [render].  Events are
      handled one at a time, each rendered before the next arrives, and an
      updater runs once per dispatch, as in a production build of React.

    Numbers.  A JavaScript number is modelled by [number]: NaN, the two
    infinities, or a rational; the sign of zero is not modelled.  The
    integer-valued cells ([time], [spikeCount], the spike times) are [Z].
    The callbacks come twice.  [sendSpike], [simulationLoop] and
    [handleCustomSpikeInput] compute with exact sums, differences and
    products; they carry the properties that do not depend on rounding.
    [sendSpikeIn], [simulationLoopIn] and [handleCustomSpikeInputIn] take
    the operations and [parseFloat] as a parameter, an [Arithmetic];
    [exact] gives the first versions back and [binary64] rounds every
    result as the language does.  What depends on the value of a sum, as
    the comparison with the threshold does, is stated for every
    [Arithmetic].

    Texts.  The custom magnitude reaches the component through a number
    input; [numberInputValue] is what that input delivers for a typed
    text. *)

From Stdlib Require Import ZArith QArith Qcanon Qpower List Sorted String Ascii
  Bool Lia Lqa.
Import ListNotations.
Local Open Scope Z_scope.

(** ** JavaScript numbers *)

Inductive number : Type :=
| NaN
| NegInfinity
| Finite (q : Qc)
| Infinity.

Definition of_Z (z : Z) : number := Finite (Q2Qc (inject_Z z)).

(** [dec n d] is the decimal literal n/d, e.g. [dec 1 10] for [0.1]. *)
Definition dec (n : Z) (d : positive) : number := Finite (Q2Qc (n # d)).

Definition num_neg (x : number) : number :=
  match x with
  | NaN => NaN
  | NegInfinity => Infinity
  | Finite q => Finite (- q)%Qc
  | Infinity => NegInfinity
  end.

(** [x + y] *)
Definition num_add (x y : number) : number :=
  match x, y with
  | NaN, _ | _, NaN => NaN
  | Infinity, NegInfinity | NegInfinity, Infinity => NaN
  | Infinity, _ | _, Infinity => Infinity
  | NegInfinity, _ | _, NegInfinity => NegInfinity
  | Finite a, Finite b => Finite (a + b)%Qc
  end.

(** [x - y] *)
Definition num_sub (x y : number) : number := num_add x (num_neg y).

Definition num_sign (x : number) : Z :=
  match x with
  | NaN => 0
  | NegInfinity => -1
  | Finite q => Z.sgn (Qnum q)
  | Infinity => 1
  end.

(** [x * y] *)
Definition num_mul (x y : number) : number :=
  match x, y with
  | NaN, _ | _, NaN => NaN
  | Finite a, Finite b => Finite (a * b)%Qc
  | _, _ =>
      match num_sign x * num_sign y with
      | Z0 => NaN
      | Zpos _ => Infinity
      | Zneg _ => NegInfinity
      end
  end.

(** [x <= y]; every comparison with NaN is false. *)
Definition num_leb (x y : number) : bool :=
  match x, y with
  | NaN, _ | _, NaN => false
  | NegInfinity, _ => true
  | _, Infinity => true
  | Infinity, _ => false
  | _, NegInfinity => false
  | Finite a, Finite b => match (a ?= b)%Qc with Gt => false | _ => true end
  end.

(** [x < y] *)
Definition num_ltb (x y : number) : bool :=
  match x, y with
  | NaN, _ | _, NaN => false
  | _, NegInfinity => false
  | NegInfinity, _ => true
  | Infinity, _ => false
  | Finite _, Infinity => true
  | Finite a, Finite b => match (a ?= b)%Qc with Lt => true | _ => false end
  end.

(** [x >= y] *)
Definition num_geb (x y : number) : bool := num_leb y x.

(** [Math.max(x, y)] *)
Definition Math_max (x y : number) : number :=
  match x, y with
  | NaN, _ | _, NaN => NaN
  | _, _ => if num_leb x y then y else x
  end.

(** [isNaN(x)] *)
Definition isNaN (x : number) : bool :=
  match x with NaN => true | _ => false end.

(** [Object.is(x, y)] on numbers: the comparison React applies to hook
    dependencies. *)
Definition Object_is (x y : number) : bool :=
  match x, y with
  | NaN, NaN | NegInfinity, NegInfinity | Infinity, Infinity => true
  | Finite a, Finite b => Qeq_bool a b
  | _, _ => false
  end.

(** ** [parseFloat]

    The ECMAScript built-in: skip leading white space, read the longest
    prefix that is a decimal literal (optional sign, then [Infinity] or
    digits with an optional fraction and an optional exponent), ignore the
    rest; NaN when there is no such prefix.  A value whose nearest
    binary64 number does not exist gives an infinity.  Texts are
    sequences of bytes in UTF-8, so the white space of the language is
    one, two or three bytes long. *)

(** Tab, line feed, vertical tab, form feed, carriage return, space. *)
Definition isWhiteSpace (a : ascii) : bool :=
  match N_of_ascii a with
  | 9%N | 10%N | 11%N | 12%N | 13%N | 32%N => true
  | _ => false
  end.

(** U+00A0, no-break space. *)
Definition isWhiteSpace2 (a b : ascii) : bool :=
  match N_of_ascii a, N_of_ascii b with
  | 194%N, 160%N => true
  | _, _ => false
  end.

(** U+1680; U+2000 to U+200A; the line and paragraph separators U+2028
    and U+2029; U+202F; U+205F; U+3000; and the byte order mark U+FEFF. *)
Definition isWhiteSpace3 (a b c : ascii) : bool :=
  match N_of_ascii a, N_of_ascii b, N_of_ascii c with
  | 225%N, 154%N, 128%N => true
  | 226%N, 128%N, n => ((128 <=? n) && (n <=? 138))%N
                       || (n =? 168)%N || (n =? 169)%N || (n =? 175)%N
  | 226%N, 129%N, 159%N => true
  | 227%N, 128%N, 128%N => true
  | 239%N, 187%N, 191%N => true
  | _, _, _ => false
  end.

Fixpoint trimStart (s : string) : string :=
  match s with
  | String a r1 =>
      if isWhiteSpace a then trimStart r1
      else
        match r1 with
        | String b r2 =>
            if isWhiteSpace2 a b then trimStart r2
            else
              match r2 with
              | String c r3 =>
                  if isWhiteSpace3 a b c then trimStart r3 else s
              | EmptyString => s
              end
        | EmptyString => s
        end
  | EmptyString => s
  end.

Definition digitValue (a : ascii) : option Z :=
  let n := Z.of_N (N_of_ascii a) in
  if (48 <=? n) && (n <=? 57) then Some (n - 48) else None.

(** Reads a run of decimal digits: the value read so far, the number of
    digits read so far, and the rest of the text. *)
Fixpoint readDigits (s : string) (acc : Z) (n : Z) : Z * Z * string :=
  match s with
  | String a r =>
      match digitValue a with
      | Some d => readDigits r (10 * acc + d) (n + 1)
      | None => (acc, n, s)
      end
  | EmptyString => (acc, n, s)
  end.

Definition readSign (s : string) : bool * string :=
  match s with
  | String "-" r => (true, r)
  | String "+" r => (false, r)
  | _ => (false, s)
  end.

Definition readExponent (s : string) : Z :=
  match s with
  | String a r =>
      if (Ascii.eqb a "e" || Ascii.eqb a "E")%bool then
        let (neg, r') := readSign r in
        let '(v, n, _) := readDigits r' 0 0 in
        if n =? 0 then 0 else if neg then - v else v
      else 0
  | EmptyString => 0
  end.

(** Half way between the largest binary64 number and 2^1024: a magnitude
    from here on has no nearest binary64 number. *)
Definition overflowBound : Q := inject_Z (2 ^ 1024 - 2 ^ 970).

Definition parseFloat (s : string) : number :=
  let (neg, s1) := readSign (trimStart s) in
  if String.prefix "Infinity" s1 then (if neg then NegInfinity else Infinity)
  else
    let '(ip, ni, s2) := readDigits s1 0 0 in
    let '(fp, nf, s3) :=
      match s2 with
      | String "." r => readDigits r 0 0
      | _ => (0, 0, s2)
      end in
    if ni + nf =? 0 then NaN
    else
      let e := readExponent s3 in
      let v := (inject_Z (ip * 10 ^ nf + fp) * Qpower 10 (e - nf))%Q in
      if Qle_bool overflowBound v
      then (if neg then NegInfinity else Infinity)
      else Finite (Q2Qc (if neg then - v else v)%Q).

(** ** The custom input

    The custom magnitude is typed into an [<input type="number">] (lines
    258-263).  What such an input delivers in [e.target.value] has gone
    through the value sanitization of the number state of the HTML
    standard: it is the typed text when that is a valid floating-point
    number, and the empty string otherwise. *)


(** [Number.isFinite(x)] *)
Definition isFinite (x : number) : bool :=
  match x with Finite _ => true | _ => false end.



(** ** The component's hook cells *)

Definition refractoryPeriod : Z := 5.
Definition timeStep : Z := 1.
Definition MAX_SPIKES_DISPLAY : nat := 20.
Definition MAX_DATA_POINTS : nat := 1000.

(** An entry of [dataPoints]: [{ time, potential, threshold }]. *)
Module DataPoint.
Record t : Type := mk { time : Z; potential : number; threshold : number }.
End DataPoint.

Record Component : Type := mkComponent {
  (* useState, lines 15-30 *)
  membranePotential : number;
  threshold : number;
  time : Z;
  dataPoints : list DataPoint.t;
  spikeCount : Z;
  spikeTimes : list Z;
  isRunning : bool;
  decayRate : number;
  thresholdDecayRate : number;
  minThreshold : number;
  spikeMagnitude : number;
  customSpikeInput : string;
  (* useRef, lines 41-43 *)
  membranePotentialRef : number;
  thresholdRef : number;
  lastSpikeTimeRef : option Z;
  (* useMemo, line 56: the value computed by the last evaluation *)
  isRefractory : bool
}.

(** The state at mount: the [useState] and [useRef] initial values; the memo
    of line 56 is evaluated with [lastSpikeTimeRef.current === null]. *)
Definition initial : Component :=
  {| membranePotential := of_Z 0;
     threshold := dec 1 1;
     time := 0;
     dataPoints := [];
     spikeCount := 0;
     spikeTimes := [];
     isRunning := true;
     decayRate := dec 1 100;
     thresholdDecayRate := dec 1 100;
     minThreshold := dec 1 1;
     spikeMagnitude := dec 5 10;
     customSpikeInput := EmptyString;
     membranePotentialRef := of_Z 0;
     thresholdRef := dec 1 1;
     lastSpikeTimeRef := None;
     isRefractory := false |}.

Definition setMembranePotential (v : number) (c : Component) : Component :=
  mkComponent v (threshold c) (time c) (dataPoints c) (spikeCount c)
    (spikeTimes c) (isRunning c) (decayRate c) (thresholdDecayRate c)
    (minThreshold c) (spikeMagnitude c) (customSpikeInput c)
    (membranePotentialRef c) (thresholdRef c) (lastSpikeTimeRef c)
    (isRefractory c).

Definition setThreshold (v : number) (c : Component) : Component :=
  mkComponent (membranePotential c) v (time c) (dataPoints c) (spikeCount c)
    (spikeTimes c) (isRunning c) (decayRate c) (thresholdDecayRate c)
    (minThreshold c) (spikeMagnitude c) (customSpikeInput c)
    (membranePotentialRef c) (thresholdRef c) (lastSpikeTimeRef c)
    (isRefractory c).

Definition setTime (v : Z) (c : Component) : Component :=
  mkComponent (membranePotential c) (threshold c) v (dataPoints c)
    (spikeCount c) (spikeTimes c) (isRunning c) (decayRate c)
    (thresholdDecayRate c) (minThreshold c) (spikeMagnitude c)
    (customSpikeInput c) (membranePotentialRef c) (thresholdRef c)
    (lastSpikeTimeRef c) (isRefractory c).

Definition setDataPoints (v : list DataPoint.t) (c : Component) : Component :=
  mkComponent (membranePotential c) (threshold c) (time c) v (spikeCount c)
    (spikeTimes c) (isRunning c) (decayRate c) (thresholdDecayRate c)
    (minThreshold c) (spikeMagnitude c) (customSpikeInput c)
    (membranePotentialRef c) (thresholdRef c) (lastSpikeTimeRef c)
    (isRefractory c).

Definition setSpikeCount (v : Z) (c : Component) : Component :=
  mkComponent (membranePotential c) (threshold c) (time c) (dataPoints c) v
    (spikeTimes c) (isRunning c) (decayRate c) (thresholdDecayRate c)
    (minThreshold c) (spikeMagnitude c) (customSpikeInput c)
    (membranePotentialRef c) (thresholdRef c) (lastSpikeTimeRef c)
    (isRefractory c).

Definition setSpikeTimes (v : list Z) (c : Component) : Component :=
  mkComponent (membranePotential c) (threshold c) (time c) (dataPoints c)
    (spikeCount c) v (isRunning c) (decayRate c) (thresholdDecayRate c)
    (minThreshold c) (spikeMagnitude c) (customSpikeInput c)
    (membranePotentialRef c) (thresholdRef c) (lastSpikeTimeRef c)
    (isRefractory c).

Definition setIsRunning (v : bool) (c : Component) : Component :=
  mkComponent (membranePotential c) (threshold c) (time c) (dataPoints c)
    (spikeCount c) (spikeTimes c) v (decayRate c) (thresholdDecayRate c)
    (minThreshold c) (spikeMagnitude c) (customSpikeInput c)
    (membranePotentialRef c) (thresholdRef c) (lastSpikeTimeRef c)
    (isRefractory c).

Definition setDecayRate (v : number) (c : Component) : Component :=
  mkComponent (membranePotential c) (threshold c) (time c) (dataPoints c)
    (spikeCount c) (spikeTimes c) (isRunning c) v (thresholdDecayRate c)
    (minThreshold c) (spikeMagnitude c) (customSpikeInput c)
    (membranePotentialRef c) (thresholdRef c) (lastSpikeTimeRef c)
    (isRefractory c).

Definition setThresholdDecayRate (v : number) (c : Component) : Component :=
  mkComponent (membranePotential c) (threshold c) (time c) (dataPoints c)
    (spikeCount c) (spikeTimes c) (isRunning c) (decayRate c) v
    (minThreshold c) (spikeMagnitude c) (customSpikeInput c)
    (membranePotentialRef c) (thresholdRef c) (lastSpikeTimeRef c)
    (isRefractory c).

Definition setMinThreshold (v : number) (c : Component) : Component :=
  mkComponent (membranePotential c) (threshold c) (time c) (dataPoints c)
    (spikeCount c) (spikeTimes c) (isRunning c) (decayRate c)
    (thresholdDecayRate c) v (spikeMagnitude c) (customSpikeInput c)
    (membranePotentialRef c) (thresholdRef c) (lastSpikeTimeRef c)
    (isRefractory c).

Definition setSpikeMagnitude (v : number) (c : Component) : Component :=
  mkComponent (membranePotential c) (threshold c) (time c) (dataPoints c)
    (spikeCount c) (spikeTimes c) (isRunning c) (decayRate c)
    (thresholdDecayRate c) (minThreshold c) v (customSpikeInput c)
    (membranePotentialRef c) (thresholdRef c) (lastSpikeTimeRef c)
    (isRefractory c).

Definition setCustomSpikeInput (v : string) (c : Component) : Component :=
  mkComponent (membranePotential c) (threshold c) (time c) (dataPoints c)
    (spikeCount c) (spikeTimes c) (isRunning c) (decayRate c)
    (thresholdDecayRate c) (minThreshold c) (spikeMagnitude c) v
    (membranePotentialRef c) (thresholdRef c) (lastSpikeTimeRef c)
    (isRefractory c).

(** Assignments to [.current] of the three refs, and the memo cell. *)
Definition setMembranePotentialRef (v : number) (c : Component) : Component :=
  mkComponent (membranePotential c) (threshold c) (time c) (dataPoints c)
    (spikeCount c) (spikeTimes c) (isRunning c) (decayRate c)
    (thresholdDecayRate c) (minThreshold c) (spikeMagnitude c)
    (customSpikeInput c) v (thresholdRef c) (lastSpikeTimeRef c)
    (isRefractory c).

Definition setThresholdRef (v : number) (c : Component) : Component :=
  mkComponent (membranePotential c) (threshold c) (time c) (dataPoints c)
    (spikeCount c) (spikeTimes c) (isRunning c) (decayRate c)
    (thresholdDecayRate c) (minThreshold c) (spikeMagnitude c)
    (customSpikeInput c) (membranePotentialRef c) v (lastSpikeTimeRef c)
    (isRefractory c).

Definition setLastSpikeTimeRef (v : option Z) (c : Component) : Component :=
  mkComponent (membranePotential c) (threshold c) (time c) (dataPoints c)
    (spikeCount c) (spikeTimes c) (isRunning c) (decayRate c)
    (thresholdDecayRate c) (minThreshold c) (spikeMagnitude c)
    (customSpikeInput c) (membranePotentialRef c) (thresholdRef c) v
    (isRefractory c).

Definition setIsRefractory (v : bool) (c : Component) : Component :=
  mkComponent (membranePotential c) (threshold c) (time c) (dataPoints c)
    (spikeCount c) (spikeTimes c) (isRunning c) (decayRate c)
    (thresholdDecayRate c) (minThreshold c) (spikeMagnitude c)
    (customSpikeInput c) (membranePotentialRef c) (thresholdRef c)
    (lastSpikeTimeRef c) v.

(** ** The callbacks *)

(** [const updated = [...prev, spikeTime]; if (updated.length >
    MAX_SPIKES_DISPLAY) updated.shift(); return updated]
    (lines 71-77 and 152-158). *)
Definition appendSpikeTime (prevSpikeTimes : list Z) (spikeTime : Z) : list Z :=
  let updatedSpikeTimes := prevSpikeTimes ++ [spikeTime] in
  if (MAX_SPIKES_DISPLAY <? List.length updatedSpikeTimes)%nat
  then tl updatedSpikeTimes
  else updatedSpikeTimes.

(** [array.slice(-n)]: the last [n] elements, the whole array when it is
    shorter. *)
Definition slice_last {A : Type} (n : nat) (l : list A) : list A :=
  skipn (List.length l - n) l.

(** The updater passed to [setMembranePotential] by [sendSpike] (lines
    64-81) and, word for word, by [handleCustomSpikeInput] (lines 145-162);
    [magnitude] is [spikeMagnitude] in the first and [customMagnitude] in
    the second.  The closure variable [time] is the state of the current
    render, since both callbacks list it as a dependency. *)
Definition stimulusUpdater (magnitude : number) (c : Component) : Component :=
  let prevPotential := membranePotential c in
  let newPotential := num_add prevPotential magnitude in
  if num_geb newPotential (thresholdRef c) then
    let spikeTime := time c in
    let c1 := setLastSpikeTimeRef (Some spikeTime) c in
    let c2 := setThreshold (num_add (threshold c1) (dec 1 10)) c1 in
    let c3 := setSpikeCount (spikeCount c2 + 1) c2 in
    let c4 := setSpikeTimes (appendSpikeTime (spikeTimes c3) spikeTime) c3 in
    setMembranePotential (of_Z 0) c4
  else
    setMembranePotential newPotential c.

(** Lines 61-82. *)
Definition sendSpike (c : Component) : Component :=
  if isRefractory c then c
  else stimulusUpdater (spikeMagnitude c) c.

(** The updater passed to [setTime] by [simulationLoop], lines 88-111. *)
Definition tick (c : Component) : Component :=
  let prevTime := time c in
  let newTime := prevTime + timeStep in
  let timeSinceLastSpike :=
    match lastSpikeTimeRef c with
    | Some lastSpikeTime => of_Z (newTime - lastSpikeTime)
    | None => Infinity
    end in
  let currentlyRefractory := num_ltb timeSinceLastSpike (of_Z refractoryPeriod) in
  let c1 :=
    if negb currentlyRefractory
    then setThreshold
           (Math_max (minThreshold c)
                     (num_sub (threshold c) (thresholdDecayRate c))) c
    else c in
  let c2 :=
    setMembranePotential
      (Math_max (of_Z 0)
                (num_sub (membranePotential c1)
                         (num_mul (decayRate c1) (of_Z timeStep)))) c1 in
  let c3 :=
    setDataPoints
      (slice_last MAX_DATA_POINTS
         (dataPoints c2 ++
          [DataPoint.mk newTime (membranePotentialRef c2) (thresholdRef c2)]))
      c2 in
  setTime newTime c3.

(** Lines 85-114; scheduling the next animation frame belongs to the
    browser and is the [Frame] event below. *)
Definition simulationLoop (c : Component) : Component :=
  if negb (isRunning c) then c else tick c.

(** Lines 131-139. *)
Definition resetSimulation (c : Component) : Component :=
  let c1 := setMembranePotential (of_Z 0) c in
  let c2 := setThreshold (dec 1 1) c1 in
  let c3 := setTime 0 c2 in
  let c4 := setDataPoints [] c3 in
  let c5 := setSpikeCount 0 c4 in
  let c6 := setSpikeTimes [] c5 in
  setLastSpikeTimeRef None c6.

(** Lines 142-165. *)
Definition handleCustomSpikeInput (c : Component) : Component :=
  let customMagnitude := parseFloat (customSpikeInput c) in
  if negb (isNaN customMagnitude) then
    let c1 := stimulusUpdater customMagnitude c in
    setCustomSpikeInput EmptyString c1
  else c.

(** ** Rendering *)

(** The body of the [useMemo] of lines 56-59, evaluated on [c]. *)
Definition computeIsRefractory (c : Component) : bool :=
  match lastSpikeTimeRef c with
  | None => false
  | Some lastSpikeTime => time c - lastSpikeTime <? refractoryPeriod
  end.

(** The render that follows a callback: [prev] is the component as the
    previous render left it, [next] the component after the callback's
    updates.  The memo is re-evaluated when [time] changed; after the
    commit the effects of lines 47-53 run when their dependency changed. *)
Definition render (prev next : Component) : Component :=
  let c1 :=
    if time prev =? time next then next
    else setIsRefractory (computeIsRefractory next) next in
  let c2 :=
    if Object_is (membranePotential prev) (membranePotential c1) then c1
    else setMembranePotentialRef (membranePotential c1) c1 in
  if Object_is (threshold prev) (threshold c2) then c2
  else setThresholdRef (threshold c2) c2.

(** ** Events

    The text of [ChangeCustomSpikeInput] is the [e.target.value] of the
    change event of line 261, which the handler stores as it is; for a
    text typed into the number input it is [numberInputValue typed]. *)

Inductive Event : Type :=
| Frame                                   (* animation frame: simulationLoop *)
| ClickSendSpike                          (* line 177 *)
| ClickPauseResume                        (* line 180 *)
| ClickReset                              (* line 183 *)
| ClickSendCustomSpike                    (* line 264 *)
| ChangeDecayRate (v : number)            (* line 195 *)
| ChangeThresholdDecayRate (v : number)   (* line 206 *)
| ChangeMinThreshold (v : number)         (* line 217 *)
| ChangeSpikeMagnitude (v : number)       (* line 228 *)
| ChangeCustomSpikeInput (text : string). (* line 262 *)

Definition handle (c : Component) (e : Event) : Component :=
  match e with
  | Frame => simulationLoop c
  | ClickSendSpike => sendSpike c
  | ClickPauseResume => setIsRunning (negb (isRunning c)) c
  | ClickReset => resetSimulation c
  | ClickSendCustomSpike => handleCustomSpikeInput c
  | ChangeDecayRate v => setDecayRate v c
  | ChangeThresholdDecayRate v => setThresholdDecayRate v c
  | ChangeMinThreshold v => setMinThreshold v c
  | ChangeSpikeMagnitude v => setSpikeMagnitude v c
  | ChangeCustomSpikeInput text => setCustomSpikeInput text c
  end.

Definition step (c : Component) (e : Event) : Component :=
  render c (handle c e).

Definition run (c : Component) (events : list Event) : Component :=
  fold_left step events c.

(** The operations of the specification's engine, as events of the
    component: [tick()] is an animation frame while running,
    [stimulate(spikeMagnitude)] the Send Spike button, [stimulate(m)] for
    a typed magnitude the custom input followed by its button, and
    [reset()] the Reset button. *)
Definition stimulateCustom (text : string) (c : Component) : Component :=
  step (step c (ChangeCustomSpikeInput text)) ClickSendCustomSpike.

(** The refractory condition of the specification, evaluated afresh on the
    current [time] and [lastSpikeTimeRef]. *)
Definition refractory (c : Component) : bool := computeIsRefractory c.

(** ** Observations and run predicates *)

(** The cells the specification calls the engine state. *)
Definition snapshot (c : Component) :
  number * number * Z * list DataPoint.t * Z * list Z * option Z :=
  (membranePotential c, threshold c, time c, dataPoints c, spikeCount c,
   spikeTimes c, lastSpikeTimeRef c).

(** A finite number that is not negative. *)
Definition finite_nonneg (x : number) : bool :=
  isFinite x && num_leb (of_Z 0) x.

(** [threshold >= minThreshold] *)
Definition floor_ok (c : Component) : bool :=
  num_geb (threshold c) (minThreshold c).

(** What holds of the cells after every render of a run that starts at
    [initial]: the two mirror refs equal their state, the memo is only set
    while the neuron is refractory, and the spike list is within its cap. *)
Record committed (c : Component) : Prop := mkCommitted {
  committed_potentialRef : membranePotentialRef c = membranePotential c;
  committed_thresholdRef : thresholdRef c = threshold c;
  committed_time : 0 <= time c;
  committed_memo0 : time c = 0 -> isRefractory c = false;
  committed_memo : isRefractory c = true -> refractory c = true;
  committed_spikeTimes : (List.length (spikeTimes c) <= MAX_SPIKES_DISPLAY)%nat
}.

(** Events whose values are finite numbers: what the sliders produce. *)
Definition finite_config (e : Event) : bool :=
  match e with
  | ChangeDecayRate v | ChangeThresholdDecayRate v
  | ChangeMinThreshold v | ChangeSpikeMagnitude v => isFinite v
  | _ => true
  end.

(** Finite configuration, and every stimulus magnitude (the slider value
    and the parsed custom text) finite and not negative. *)
Definition nonneg_stimuli (e : Event) : bool :=
  match e with
  | ChangeSpikeMagnitude v => finite_nonneg v
  | ChangeCustomSpikeInput text =>
      isNaN (parseFloat text) || finite_nonneg (parseFloat text)
  | _ => finite_config e
  end.

(** Events of a session in which [minThreshold] is never raised and the
    simulation is not reset. *)
Definition keeps_floor (c : Component) (e : Event) : bool :=
  match e with
  | ChangeMinThreshold v => isFinite v && num_leb v (minThreshold c)
  | ClickReset => false
  | _ => finite_config e
  end.

(** [along P c events]: [P] holds of every event of the run at the state
    in which it is handled. *)
Fixpoint along (P : Component -> Event -> bool) (c : Component)
    (events : list Event) : bool :=
  match events with
  | [] => true
  | e :: rest => P c e && along P (step c e) rest
  end.

(** The data point a tick creates (line 105). *)
Definition newDataPoint (c : Component) : DataPoint.t :=
  DataPoint.mk (time c + timeStep) (membranePotentialRef c) (thresholdRef c).

(** ** The callbacks over the arithmetic of the platform

    [num_add], [num_sub] and [num_mul] compute exactly, where the [+], [-]
    and [*] of the program round their result to binary64, and where its
    [parseFloat] is the one of the engine.  The callbacks that compute
    with numbers are therefore given a second time, with these operations
    as parameters.  What is proved of them holds for every choice of the
    operations: for the exact ones above and for correctly rounded ones
    alike.  Comparisons, [Math.max] and [isNaN] involve no rounding, and
    [time] is an integer; they stay as they are. *)
Record Arithmetic : Type := mkArithmetic {
  js_add : number -> number -> number;      (* x + y *)
  js_sub : number -> number -> number;      (* x - y *)
  js_mul : number -> number -> number;      (* x * y *)
  js_tenth : number;                        (* the literal 0.1 *)
  js_parseFloat : string -> number          (* parseFloat *)
}.

(** The operations of the exact model. *)
Definition exact : Arithmetic :=
  mkArithmetic num_add num_sub num_mul (dec 1 10) parseFloat.

(** The operations of binary64, the number format of the language, with
    the default rounding: the result of an operation is the exact result
    rounded to the nearest representable value, a tie going to the value
    with the even significand, and a rounded magnitude of [2^1024] or more
    being an infinity.  For a positive rational [n / d] the representable
    values around it are the multiples of [2^e], where [e] is
    [floor (log2 (n / d)) - 52] and at least [-1074].  The sign of zero is
    not represented. *)
Definition floorLog2 (n d : Z) : Z :=
  let k := Z.log2 n - Z.log2 d in
  if (if 0 <=? k then d * 2 ^ k <=? n else d <=? n * 2 ^ (- k))
  then k else k - 1.

Definition roundPositive (n d : Z) : number :=
  let e := Z.max (floorLog2 n d - 52) (-1074) in
  let num := n * 2 ^ Z.max (- e) 0 in
  let den := d * 2 ^ Z.max e 0 in
  let m := num / den in
  let r := num mod den in
  let significand :=
    if 2 * r <? den then m
    else if den <? 2 * r then m + 1
    else if Z.even m then m else m + 1 in
  let v := (inject_Z significand * Qpower 2 e)%Q in
  if Qle_bool (inject_Z (2 ^ 1024)) v then Infinity else Finite (Q2Qc v).

Definition roundToDouble (x : number) : number :=
  match x with
  | Finite q =>
      let n := Qnum q in
      let d := Zpos (Qden q) in
      if n =? 0 then x
      else if 0 <? n then roundPositive n d
      else num_neg (roundPositive (- n) d)
  | _ => x
  end.

Definition binary64 : Arithmetic :=
  mkArithmetic
    (fun x y => roundToDouble (num_add x y))
    (fun x y => roundToDouble (num_sub x y))
    (fun x y => roundToDouble (num_mul x y))
    (roundToDouble (dec 1 10))
    (fun s => roundToDouble (parseFloat s)).

(** Lines 64-81 and 145-162. *)
Definition stimulusUpdaterIn (A : Arithmetic) (magnitude : number)
    (c : Component) : Component :=
  let prevPotential := membranePotential c in
  let newPotential := js_add A prevPotential magnitude in
  if num_geb newPotential (thresholdRef c) then
    let spikeTime := time c in
    let c1 := setLastSpikeTimeRef (Some spikeTime) c in
    let c2 := setThreshold (js_add A (threshold c1) (js_tenth A)) c1 in
    let c3 := setSpikeCount (spikeCount c2 + 1) c2 in
    let c4 := setSpikeTimes (appendSpikeTime (spikeTimes c3) spikeTime) c3 in
    setMembranePotential (of_Z 0) c4
  else
    setMembranePotential newPotential c.

(** Lines 61-82. *)
Definition sendSpikeIn (A : Arithmetic) (c : Component) : Component :=
  if isRefractory c then c
  else stimulusUpdaterIn A (spikeMagnitude c) c.

(** Lines 88-111. *)
Definition tickIn (A : Arithmetic) (c : Component) : Component :=
  let prevTime := time c in
  let newTime := prevTime + timeStep in
  let timeSinceLastSpike :=
    match lastSpikeTimeRef c with
    | Some lastSpikeTime => of_Z (newTime - lastSpikeTime)
    | None => Infinity
    end in
  let currentlyRefractory := num_ltb timeSinceLastSpike (of_Z refractoryPeriod) in
  let c1 :=
    if negb currentlyRefractory
    then setThreshold
           (Math_max (minThreshold c)
                     (js_sub A (threshold c) (thresholdDecayRate c))) c
    else c in
  let c2 :=
    setMembranePotential
      (Math_max (of_Z 0)
                (js_sub A (membranePotential c1)
                          (js_mul A (decayRate c1) (of_Z timeStep)))) c1 in
  let c3 :=
    setDataPoints
      (slice_last MAX_DATA_POINTS
         (dataPoints c2 ++
          [DataPoint.mk newTime (membranePotentialRef c2) (thresholdRef c2)]))
      c2 in
  setTime newTime c3.

(** Lines 85-114. *)
Definition simulationLoopIn (A : Arithmetic) (c : Component) : Component :=
  if negb (isRunning c) then c else tickIn A c.

(** Lines 142-165. *)
Definition handleCustomSpikeInputIn (A : Arithmetic) (c : Component)
    : Component :=
  let customMagnitude := js_parseFloat A (customSpikeInput c) in
  if negb (isNaN customMagnitude) then
    let c1 := stimulusUpdaterIn A customMagnitude c in
    setCustomSpikeInput EmptyString c1
  else c.

Definition handleIn (A : Arithmetic) (c : Component) (e : Event)
    : Component :=
  match e with
  | Frame => simulationLoopIn A c
  | ClickSendSpike => sendSpikeIn A c
  | ClickPauseResume => setIsRunning (negb (isRunning c)) c
  | ClickReset => resetSimulation c
  | ClickSendCustomSpike => handleCustomSpikeInputIn A c
  | ChangeDecayRate v => setDecayRate v c
  | ChangeThresholdDecayRate v => setThresholdDecayRate v c
  | ChangeMinThreshold v => setMinThreshold v c
  | ChangeSpikeMagnitude v => setSpikeMagnitude v c
  | ChangeCustomSpikeInput text => setCustomSpikeInput text c
  end.

Definition stepIn (A : Arithmetic) (c : Component) (e : Event) : Component :=
  render c (handleIn A c e).

Definition runIn (A : Arithmetic) (c : Component) (events : list Event)
    : Component :=
  fold_left (stepIn A) events c.

Definition stimulateCustomIn (A : Arithmetic) (text : string)
    (c : Component) : Component :=
  stepIn A (stepIn A c (ChangeCustomSpikeInput text)) ClickSendCustomSpike.

(** ** The history of a run

    What a run should have recorded, read off the events and the state
    each one meets, not off what the callbacks wrote.  A tick is an
    animation frame that meets a running simulation; the data point it
    stands for has the next time and the potential and threshold of that
    state.  A spike is a stimulus that is let through (Send Spike while
    the button's guard is open, or a custom text that parses to a number)
    and whose sum with the potential reaches the threshold; it stands for
    the current time. *)
Definition reaches (A : Arithmetic) (magnitude : number) (c : Component)
    : bool :=
  num_geb (js_add A (membranePotential c) magnitude) (threshold c).

Definition spikeOf (A : Arithmetic) (c : Component) (e : Event) : option Z :=
  match e with
  | ClickSendSpike =>
      if isRefractory c then None
      else if reaches A (spikeMagnitude c) c then Some (time c) else None
  | ClickSendCustomSpike =>
      let m := js_parseFloat A (customSpikeInput c) in
      if isNaN m then None
      else if reaches A m c then Some (time c) else None
  | _ => None
  end.

Definition sampleOf (c : Component) (e : Event) : option DataPoint.t :=
  match e with
  | Frame =>
      if isRunning c
      then Some (DataPoint.mk (time c + 1) (membranePotential c) (threshold c))
      else None
  | _ => None
  end.

Definition logged {X : Type} (log : list X) (entry : option X) : list X :=
  match entry with
  | Some x => log ++ [x]
  | None => log
  end.

(** Every spike time and every data point of the run since its last
    reset, oldest first. *)
Fixpoint spikeLog (A : Arithmetic) (c : Component) (events : list Event)
    (log : list Z) : list Z :=
  match events with
  | [] => log
  | e :: rest =>
      spikeLog A (stepIn A c e) rest
        match e with
        | ClickReset => []
        | _ => logged log (spikeOf A c e)
        end
  end.

Fixpoint sampleLog (A : Arithmetic) (c : Component) (events : list Event)
    (log : list DataPoint.t) : list DataPoint.t :=
  match events with
  | [] => log
  | e :: rest =>
      sampleLog A (stepIn A c e) rest
        match e with
        | ClickReset => []
        | _ => logged log (sampleOf c e)
        end
  end.

(** The two outcomes of a stimulus of magnitude [m], with the sums as the
    platform computes them. *)
Definition spike_outcomeIn (A : Arithmetic) (c c' : Component) : Prop :=
  lastSpikeTimeRef c' = Some (time c) /\
  threshold c' = js_add A (threshold c) (js_tenth A) /\
  spikeCount c' = spikeCount c + 1 /\
  spikeTimes c' = slice_last MAX_SPIKES_DISPLAY (spikeTimes c ++ [time c]) /\
  membranePotential c' = of_Z 0.

Definition accumulate_outcomeIn (A : Arithmetic) (m : number)
    (c c' : Component) : Prop :=
  membranePotential c' = js_add A (membranePotential c) m /\
  threshold c' = threshold c /\
  spikeCount c' = spikeCount c /\
  spikeTimes c' = spikeTimes c /\
  lastSpikeTimeRef c' = lastSpikeTimeRef c.

Definition stimulus_outcomeIn (A : Arithmetic) (m : number)
    (c c' : Component) : Prop :=
  if num_geb (js_add A (membranePotential c) m) (threshold c)
  then spike_outcomeIn A c c' /\ ~ accumulate_outcomeIn A m c c'
  else accumulate_outcomeIn A m c c' /\ ~ spike_outcomeIn A c c'.

(** How a callback result [n] may differ from the component [c] it
    started from in [time], [lastSpikeTimeRef] and [spikeTimes], the
    mirror refs and the memo being left alone. *)
Definition callback_shape (c n : Component) : Prop :=
  membranePotentialRef n = membranePotentialRef c /\
  thresholdRef n = thresholdRef c /\
  isRefractory n = isRefractory c /\
  ((time n = time c /\ lastSpikeTimeRef n = lastSpikeTimeRef c /\
    spikeTimes n = spikeTimes c) \/
   (time n = time c /\ lastSpikeTimeRef n = Some (time c) /\
    spikeTimes n = appendSpikeTime (spikeTimes c) (time c)) \/
   (time n = time c + 1 /\ lastSpikeTimeRef n = lastSpikeTimeRef c /\
    spikeTimes n = spikeTimes c) \/
   (time n = 0 /\ lastSpikeTimeRef n = None /\ spikeTimes n = [])).

(** The two outcomes a stimulus of magnitude [m] can have, as relations
    between the cells before ([c]) and after ([c']) the call; they are the
    properties the theorems on [stimulusUpdater] state. *)
Definition spike_outcome (c c' : Component) : Prop :=
  lastSpikeTimeRef c' = Some (time c) /\
  threshold c' = num_add (threshold c) (dec 1 10) /\
  spikeCount c' = spikeCount c + 1 /\
  spikeTimes c' = slice_last MAX_SPIKES_DISPLAY (spikeTimes c ++ [time c]) /\
  membranePotential c' = of_Z 0.

Definition accumulate_outcome (m : number) (c c' : Component) : Prop :=
  membranePotential c' = num_add (membranePotential c) m /\
  threshold c' = threshold c /\
  spikeCount c' = spikeCount c /\
  spikeTimes c' = spikeTimes c /\
  lastSpikeTimeRef c' = lastSpikeTimeRef c.

Definition stimulus_outcome (m : number) (c c' : Component) : Prop :=
  if num_geb (num_add (membranePotential c) m) (threshold c)
  then spike_outcome c c' /\ ~ accumulate_outcome m c c'
  else accumulate_outcome m c c' /\ ~ spike_outcome c c'.

(** Cells on which the sign of the potential depends: the potential and
    the slider magnitude are finite and not negative, the decay rate is
    finite, and the custom text parses to NaN or to such a magnitude. *)
Record potential_safe (c : Component) : Prop := mkPotentialSafe {
  safe_potential : finite_nonneg (membranePotential c) = true;
  safe_magnitude : finite_nonneg (spikeMagnitude c) = true;
  safe_decayRate : isFinite (decayRate c) = true;
  safe_custom :
    isNaN (parseFloat (customSpikeInput c))
    || finite_nonneg (parseFloat (customSpikeInput c)) = true
}.

(** Cells on which the threshold depends, all finite. *)
Record threshold_finite (c : Component) : Prop := mkThresholdFinite {
  finite_threshold : isFinite (threshold c) = true;
  finite_minThreshold : isFinite (minThreshold c) = true;
  finite_thresholdDecayRate : isFinite (thresholdDecayRate c) = true
}.

(** How the two logs of a run relate to the component they are kept
    beside. *)
Record history (c : Component) (spikes : list Z)
    (samples : list DataPoint.t) : Prop := mkHistory {
  history_spikeTimes : spikeTimes c = slice_last MAX_SPIKES_DISPLAY spikes;
  history_dataPoints : dataPoints c = slice_last MAX_DATA_POINTS samples;
  history_spikeCount : spikeCount c = Z.of_nat (List.length spikes);
  history_time : time c = Z.of_nat (List.length samples);
  history_before : Forall (fun t => t <= time c) spikes;
  history_sorted : StronglySorted Z.le spikes
}.

(** ** Derived display values *)

(** Line 168: the upper end of the chart's y axis,
    [Math.max(threshold + 1, 5)]. *)
Definition yMax (c : Component) : number :=
  Math_max (num_add (threshold c) (of_Z 1)) (of_Z 5).

(** The component at mount with the configuration cells, the running flag
    and the custom text of [c]: what the [useState] and [useRef] initial
    values give for every cell [resetSimulation] writes. *)
Definition freshWith (c : Component) : Component :=
  {| membranePotential := of_Z 0;
     threshold := dec 1 1;
     time := 0;
     dataPoints := [];
     spikeCount := 0;
     spikeTimes := [];
     isRunning := isRunning c;
     decayRate := decayRate c;
     thresholdDecayRate := thresholdDecayRate c;
     minThreshold := minThreshold c;
     spikeMagnitude := spikeMagnitude c;
     customSpikeInput := customSpikeInput c;
     membranePotentialRef := of_Z 0;
     thresholdRef := dec 1 1;
     lastSpikeTimeRef := None;
     isRefractory := false |}.

(** [countdown t l]: the list [l] is [t; t - 1; t - 2; ...]. *)
Fixpoint countdown (t : Z) (l : list Z) : Prop :=
  match l with
  | [] => True
  | x :: rest => x = t /\ countdown (t - 1) rest
  end.

(** The three spike cells tell one story: with no last spike time there
    are no spike times and the count is 0; otherwise the last spike time
    is the newest entry of [spikeTimes], is not in the future, and the
    count is positive. *)
Definition last_spike_recorded (c : Component) : Prop :=
  match lastSpikeTimeRef c with
  | None => spikeTimes c = [] /\ spikeCount c = 0
  | Some t =>
      (exists older, spikeTimes c = older ++ [t]) /\
      0 <= time c - t /\ 0 < spikeCount c
  end.

(** ** Animation frames

    The scheduling half of the component: the [requestAnimationFrame]
    call of line 113 and the effect of lines 116-128.  A [Page] is the
    component together with [animationFrameRef] (line 44), the memoised
    [simulationLoop] of the last render, and the browser's list of
    pending animation frame callbacks with its handle counter. *)

(** The [simulationLoop] function of one render, given by the values its
    closure captured: its [useCallback] dependencies (line 114; [timeStep]
    and [refractoryPeriod] are constants). *)
Record Loop : Type := mkLoop {
  loop_isRunning : bool;
  loop_decayRate : number;
  loop_thresholdDecayRate : number;
  loop_minThreshold : number
}.

Definition captureLoop (c : Component) : Loop :=
  mkLoop (isRunning c) (decayRate c) (thresholdDecayRate c) (minThreshold c).

(** The dependency comparison of [useCallback]. *)
Definition sameLoop (a b : Loop) : bool :=
  Bool.eqb (loop_isRunning a) (loop_isRunning b)
  && Object_is (loop_decayRate a) (loop_decayRate b)
  && Object_is (loop_thresholdDecayRate a) (loop_thresholdDecayRate b)
  && Object_is (loop_minThreshold a) (loop_minThreshold b).

Record Page : Type := mkPage {
  component : Component;
  simulationLoopFn : Loop;
  animationFrameRef : option nat;
  frameCallbacks : list (nat * Loop);
  nextHandle : nat
}.

Definition setComponent (c : Component) (p : Page) : Page :=
  mkPage c (simulationLoopFn p) (animationFrameRef p) (frameCallbacks p)
    (nextHandle p).

Definition setSimulationLoopFn (l : Loop) (p : Page) : Page :=
  mkPage (component p) l (animationFrameRef p) (frameCallbacks p)
    (nextHandle p).

Definition setAnimationFrameRef (r : option nat) (p : Page) : Page :=
  mkPage (component p) (simulationLoopFn p) r (frameCallbacks p)
    (nextHandle p).

Definition setFrameCallbacks (l : list (nat * Loop)) (p : Page) : Page :=
  mkPage (component p) (simulationLoopFn p) (animationFrameRef p) l
    (nextHandle p).

(** [requestAnimationFrame(callback)]: the callback joins the list under a
    fresh handle, which is returned. *)
Definition requestAnimationFrame (callback : Loop) (p : Page) : nat * Page :=
  (nextHandle p,
   mkPage (component p) (simulationLoopFn p) (animationFrameRef p)
     (frameCallbacks p ++ [(nextHandle p, callback)])
     (S (nextHandle p))).

(** [cancelAnimationFrame(handle)]: the callback with that handle, if it
    is still pending, leaves the list. *)
Definition cancelAnimationFrame (handle : nat) (p : Page) : Page :=
  setFrameCallbacks
    (filter (fun hc => negb (Nat.eqb (fst hc) handle)) (frameCallbacks p)) p.

(** [if (animationFrameRef.current)]: a handle that is neither [null] nor
    0. *)
Definition truthy (r : option nat) : bool :=
  match r with
  | Some (S _) => true
  | _ => false
  end.

(** [if (animationFrameRef.current)
      cancelAnimationFrame(animationFrameRef.current)]
    (lines 119-120 and 124-126). *)
Definition cancelPendingFrame (p : Page) : Page :=
  match animationFrameRef p with
  | Some handle =>
      if truthy (Some handle) then cancelAnimationFrame handle p else p
  | None => p
  end.

(** [animationFrameRef.current = requestAnimationFrame(callback)]
    (lines 113 and 118). *)
Definition scheduleFrame (callback : Loop) (p : Page) : Page :=
  let (handle, p1) := requestAnimationFrame callback p in
  setAnimationFrameRef (Some handle) p1.

(** The component with the three rates a loop closure captured in place
    of its own, and back: [tick] reads these cells, the closure reads its
    captured values. *)
Definition withLoop (l : Loop) (c : Component) : Component :=
  setMinThreshold (loop_minThreshold l)
    (setThresholdDecayRate (loop_thresholdDecayRate l)
       (setDecayRate (loop_decayRate l) c)).

Definition restoreRates (from c : Component) : Component :=
  setMinThreshold (minThreshold from)
    (setThresholdDecayRate (thresholdDecayRate from)
       (setDecayRate (decayRate from) c)).

(** A call of the [simulationLoop] closure [self] (lines 85-114): nothing
    when it captured [isRunning = false]; otherwise the [setTime] update
    with the captured rates, and the same closure is scheduled again. *)
Definition callSimulationLoop (self : Loop) (p : Page) : Page :=
  if negb (loop_isRunning self) then p
  else
    let c := component p in
    let p1 := setComponent (restoreRates c (tick (withLoop self c))) p in
    scheduleFrame self p1.

(** The effect of lines 116-128: its body and its cleanup. *)
Definition frameEffect (p : Page) : Page :=
  if isRunning (component p) then scheduleFrame (simulationLoopFn p) p
  else cancelPendingFrame p.

Definition frameEffectCleanup (p : Page) : Page := cancelPendingFrame p.

(** The render of the page after the updates of one event: the component
    renders, [useCallback] keeps or replaces [simulationLoop], and the
    frame effect is cleaned up and run again when one of its dependencies
    [[isRunning, simulationLoop]] changed. *)
Definition pageRender (prev : Page) (next : Page) : Page :=
  let c := render (component prev) (component next) in
  let loop :=
    if sameLoop (simulationLoopFn prev) (captureLoop c)
    then simulationLoopFn prev else captureLoop c in
  let p1 := setSimulationLoopFn loop (setComponent c next) in
  if Bool.eqb (isRunning (component prev)) (isRunning c)
     && sameLoop (simulationLoopFn prev) loop
  then p1
  else frameEffect (frameEffectCleanup p1).

(** One event on the page.  On an animation frame the browser empties its
    callback list and calls the callbacks that were in it; any other
    event runs its handler on the component. *)
Definition pageStep (p : Page) (e : Event) : Page :=
  let next :=
    match e with
    | Frame =>
        fold_left (fun q hc => callSimulationLoop (snd hc) q)
          (frameCallbacks p) (setFrameCallbacks [] p)
    | _ => setComponent (handle (component p) e) p
    end in
  pageRender p next.

(** The page after the first render: the frame effect has run once. *)
Definition mount : Page :=
  frameEffect (mkPage initial (captureLoop initial) None [] 1).

Definition pageRun (p : Page) (events : list Event) : Page :=
  fold_left pageStep events p.

(** What the scheduling keeps true: the memoised loop is the one of the
    current render, and the browser holds exactly one pending callback,
    that loop, under the handle in [animationFrameRef], while the
    simulation runs, and none while it is paused. *)
Record scheduled (p : Page) : Prop := mkScheduled {
  scheduled_loop : simulationLoopFn p = captureLoop (component p);
  scheduled_running :
    isRunning (component p) = true ->
    exists handle,
      animationFrameRef p = Some (S handle) /\
      frameCallbacks p = [(S handle, captureLoop (component p))];
  scheduled_paused :
    isRunning (component p) = false -> frameCallbacks p = [];
  scheduled_handle : nextHandle p <> 0%nat
}.

(** The pending callbacks as the invariant wants them for a component
    [c]. *)
Definition pending_for (c : Component) (p : Page) : Prop :=
  (isRunning c = true ->
   exists handle,
     animationFrameRef p = Some (S handle) /\
     frameCallbacks p = [(S handle, captureLoop c)]) /\
  (isRunning c = false -> frameCallbacks p = []) /\
  nextHandle p <> 0%nat.

(** ** Numbers: basic facts *)

Lemma Finite_ext (a b : Qc) : this a = this b -> Finite a = Finite b.
Proof. intros H; f_equal; apply Qc_decomp; exact H. Qed.

Lemma Object_is_refl (x : number) : Object_is x x = true.
Proof. destruct x; simpl; auto using Qeq_bool_refl. Qed.

Lemma Object_is_eq (x y : number) : Object_is x y = true -> x = y.
Proof.
  destruct x as [| |a|], y as [| |b|]; simpl; try discriminate; auto.
  intros H; f_equal; apply Qc_is_canon, Qeq_bool_iff, H.
Qed.

Lemma num_leb_Finite (a b : Qc) :
  num_leb (Finite a) (Finite b) = true <-> (a <= b)%Qc.
Proof.
  simpl; rewrite Qcle_alt.
  destruct (a ?= b)%Qc; split; intros; congruence.
Qed.

Lemma num_leb_refl (a : Qc) : num_leb (Finite a) (Finite a) = true.
Proof. apply num_leb_Finite, Qcle_refl. Qed.

Lemma num_ltb_of_Z (a b : Z) : num_ltb (of_Z a) (of_Z b) = (a <? b).
Proof.
  unfold of_Z, num_ltb, Qccompare, Q2Qc. cbn [this].
  rewrite <- Qred_compare.
  unfold Qcompare, inject_Z. cbn [Qnum Qden].
  rewrite !Z.mul_1_r. reflexivity.
Qed.

Lemma Math_max_Finite (a b : Qc) :
  Math_max (Finite a) (Finite b) =
  Finite (if num_leb (Finite a) (Finite b) then b else a).
Proof. unfold Math_max; destruct (num_leb _ _); reflexivity. Qed.

Lemma Math_max_lower (a b : Qc) :
  num_leb (Finite a) (Math_max (Finite a) (Finite b)) = true.
Proof.
  rewrite Math_max_Finite.
  destruct (num_leb (Finite a) (Finite b)) eqn:E; [exact E | apply num_leb_refl].
Qed.

Lemma num_leb_add_tenth (a b : Qc) :
  num_leb (Finite a) (Finite b) = true ->
  num_leb (Finite a) (num_add (Finite b) (dec 1 10)) = true.
Proof.
  unfold dec; simpl num_add. rewrite !num_leb_Finite. intros H.
  rewrite <- (Qcplus_0_r a).
  apply Qcplus_le_compat; [exact H | discriminate].
Qed.

Lemma num_leb_add_nonneg (a m : Qc) :
  num_leb (of_Z 0) (Finite a) = true ->
  num_leb (of_Z 0) (Finite m) = true ->
  num_leb (of_Z 0) (num_add (Finite a) (Finite m)) = true.
Proof.
  unfold of_Z; simpl num_add. rewrite !num_leb_Finite. intros Ha Hm.
  rewrite <- (Qcplus_0_r (Q2Qc (inject_Z 0))).
  apply Qcplus_le_compat; assumption.
Qed.

Lemma num_leb_trans (a b c : Qc) :
  num_leb (Finite a) (Finite b) = true ->
  num_leb (Finite b) (Finite c) = true ->
  num_leb (Finite a) (Finite c) = true.
Proof. rewrite !num_leb_Finite. apply Qcle_trans. Qed.

(** ** Rendering: which cells a render touches *)

Ltac render_cases :=
  unfold render;
  repeat match goal with
         | |- context [if ?b then _ else _] => destruct b
         end;
  reflexivity.

Lemma render_membranePotential (prev next : Component) :
  membranePotential (render prev next) = membranePotential next.
Proof. render_cases. Qed.

Lemma render_threshold (prev next : Component) :
  threshold (render prev next) = threshold next.
Proof. render_cases. Qed.

Lemma render_time (prev next : Component) :
  time (render prev next) = time next.
Proof. render_cases. Qed.

Lemma render_dataPoints (prev next : Component) :
  dataPoints (render prev next) = dataPoints next.
Proof. render_cases. Qed.

Lemma render_spikeCount (prev next : Component) :
  spikeCount (render prev next) = spikeCount next.
Proof. render_cases. Qed.

Lemma render_spikeTimes (prev next : Component) :
  spikeTimes (render prev next) = spikeTimes next.
Proof. render_cases. Qed.

Lemma render_isRunning (prev next : Component) :
  isRunning (render prev next) = isRunning next.
Proof. render_cases. Qed.

Lemma render_decayRate (prev next : Component) :
  decayRate (render prev next) = decayRate next.
Proof. render_cases. Qed.

Lemma render_thresholdDecayRate (prev next : Component) :
  thresholdDecayRate (render prev next) = thresholdDecayRate next.
Proof. render_cases. Qed.

Lemma render_minThreshold (prev next : Component) :
  minThreshold (render prev next) = minThreshold next.
Proof. render_cases. Qed.

Lemma render_spikeMagnitude (prev next : Component) :
  spikeMagnitude (render prev next) = spikeMagnitude next.
Proof. render_cases. Qed.

Lemma render_customSpikeInput (prev next : Component) :
  customSpikeInput (render prev next) = customSpikeInput next.
Proof. render_cases. Qed.

Lemma render_lastSpikeTimeRef (prev next : Component) :
  lastSpikeTimeRef (render prev next) = lastSpikeTimeRef next.
Proof. render_cases. Qed.

Create Rewrite HintDb render.
#[export] Hint Rewrite render_membranePotential render_threshold render_time render_dataPoints render_spikeCount render_spikeTimes render_isRunning render_decayRate render_thresholdDecayRate render_minThreshold render_spikeMagnitude render_customSpikeInput render_lastSpikeTimeRef : render.

Lemma render_membranePotentialRef (prev next : Component) :
  membranePotentialRef (render prev next) =
  if Object_is (membranePotential prev) (membranePotential next)
  then membranePotentialRef next else membranePotential next.
Proof.
  unfold render. destruct (time prev =? time next);
    simpl;
    destruct (Object_is (membranePotential prev) (membranePotential next));
    simpl; destruct (Object_is (threshold prev) (threshold next));
    reflexivity.
Qed.

Lemma render_thresholdRef (prev next : Component) :
  thresholdRef (render prev next) =
  if Object_is (threshold prev) (threshold next)
  then thresholdRef next else threshold next.
Proof.
  unfold render. destruct (time prev =? time next);
    simpl;
    destruct (Object_is (membranePotential prev) (membranePotential next));
    simpl; destruct (Object_is (threshold prev) (threshold next));
    reflexivity.
Qed.

Lemma render_isRefractory (prev next : Component) :
  isRefractory (render prev next) =
  if time prev =? time next then isRefractory next
  else computeIsRefractory next.
Proof.
  unfold render. destruct (time prev =? time next);
    simpl;
    destruct (Object_is (membranePotential prev) (membranePotential next));
    simpl; destruct (Object_is (threshold prev) (threshold next));
    reflexivity.
Qed.

Lemma render_same (c : Component) : render c c = c.
Proof.
  unfold render. rewrite Z.eqb_refl, !Object_is_refl. reflexivity.
Qed.

Lemma snapshot_render (prev next : Component) :
  snapshot (render prev next) = snapshot next.
Proof. unfold snapshot. autorewrite with render. reflexivity. Qed.

(** ** The callbacks: which cells they touch *)

Lemma appendSpikeTime_length (l : list Z) (t : Z) :
  (List.length l <= MAX_SPIKES_DISPLAY)%nat ->
  (List.length (appendSpikeTime l t) <= MAX_SPIKES_DISPLAY)%nat.
Proof.
  intros H. unfold appendSpikeTime.
  destruct (Nat.ltb_spec MAX_SPIKES_DISPLAY (List.length (l ++ [t]))) as [L|L].
  - destruct (l ++ [t]) eqn:E; simpl in *; [lia|].
    assert (List.length (l ++ [t]) = S (List.length l)) as E'
      by (rewrite length_app; simpl; lia).
    rewrite E in E'. simpl in E'. lia.
  - exact L.
Qed.

(** A callback leaves the mirror refs and the memo alone, and does one of
    four things to [time], [lastSpikeTimeRef] and [spikeTimes]: nothing, a
    spike at the current time, a tick, or a reset. *)
Lemma handle_shape (c : Component) (e : Event) :
  let n := handle c e in
  membranePotentialRef n = membranePotentialRef c /\
  thresholdRef n = thresholdRef c /\
  isRefractory n = isRefractory c /\
  ((time n = time c /\ lastSpikeTimeRef n = lastSpikeTimeRef c /\
    spikeTimes n = spikeTimes c) \/
   (time n = time c /\ lastSpikeTimeRef n = Some (time c) /\
    spikeTimes n = appendSpikeTime (spikeTimes c) (time c)) \/
   (time n = time c + 1 /\ lastSpikeTimeRef n = lastSpikeTimeRef c /\
    spikeTimes n = spikeTimes c) \/
   (time n = 0 /\ lastSpikeTimeRef n = None /\ spikeTimes n = [])).
Proof.
  destruct e; cbn [handle];
    unfold simulationLoop, tick, sendSpike, handleCustomSpikeInput,
      stimulusUpdater, resetSimulation;
    unfold timeStep;
    repeat match goal with
           | |- context [if ?b then _ else _] => destruct b eqn:?
           end;
    cbn; intuition congruence.
Qed.

Lemma committed_initial : committed initial.
Proof.
  constructor; cbn; try reflexivity; try lia; try discriminate.
Qed.

Lemma committed_step (c : Component) (e : Event) :
  committed c -> committed (step c e).
Proof.
  intros [Hp Ht H0 Hm0 Hm Hs]. unfold step.
  destruct (handle_shape c e) as (Rp & Rt & Rm & Hcase).
  set (n := handle c e) in *.
  constructor; unfold refractory, computeIsRefractory in *;
    autorewrite with render.
  - rewrite render_membranePotentialRef.
    destruct (Object_is _ _) eqn:E; [|reflexivity].
    apply Object_is_eq in E. congruence.
  - rewrite render_thresholdRef.
    destruct (Object_is _ _) eqn:E; [|reflexivity].
    apply Object_is_eq in E. congruence.
  - destruct Hcase as [(T & _)|[(T & _)|[(T & _)|(T & _)]]]; lia.
  - intros Z0. rewrite render_isRefractory.
    destruct (Z.eqb_spec (time c) (time n)) as [E|E].
    + rewrite Rm. apply Hm0. lia.
    + unfold computeIsRefractory.
      destruct Hcase as [(T & _)|[(T & _)|[(T & _)|(T & L & _)]]];
        try lia.
      rewrite L. reflexivity.
  - rewrite render_isRefractory.
    destruct (Z.eqb_spec (time c) (time n)) as [E|E].
    + rewrite Rm. intros M. specialize (Hm M).
      destruct Hcase as [(T & L & _)|[(T & L & _)|[(T & L & _)|(T & L & _)]]];
        rewrite L.
      * rewrite <- E. exact Hm.
      * rewrite <- E, Z.sub_diag. reflexivity.
      * lia.
      * rewrite Hm0 in M by lia. discriminate.
    + unfold computeIsRefractory. auto.
  - destruct Hcase as [(_ & _ & S)|[(_ & _ & S)|[(_ & _ & S)|(_ & _ & S)]]];
      rewrite S; auto using appendSpikeTime_length.
    cbn. unfold MAX_SPIKES_DISPLAY. lia.
Qed.

Lemma committed_run (c : Component) (events : list Event) :
  committed c -> committed (run c events).
Proof.
  revert c. induction events as [|e rest IH]; intros c H; cbn.
  - exact H.
  - apply IH, committed_step, H.
Qed.

Lemma committed_reachable (events : list Event) :
  committed (run initial events).
Proof. apply committed_run, committed_initial. Qed.

(** The same for the callbacks over the arithmetic of the platform. *)
Lemma stepIn_exact (c : Component) (e : Event) : stepIn exact c e = step c e.
Proof. destruct e; reflexivity. Qed.

Lemma runIn_exact (c : Component) (events : list Event) :
  runIn exact c events = run c events.
Proof.
  unfold runIn, run. revert c.
  induction events as [|e rest IH]; intros c; cbn [fold_left].
  - reflexivity.
  - rewrite stepIn_exact. apply IH.
Qed.

Lemma handleIn_shape (A : Arithmetic) (c : Component) (e : Event) :
  callback_shape c (handleIn A c e).
Proof.
  unfold callback_shape.
  destruct e; cbn [handleIn];
    unfold simulationLoopIn, tickIn, sendSpikeIn, handleCustomSpikeInputIn,
      stimulusUpdaterIn, resetSimulation;
    unfold timeStep;
    repeat match goal with
           | |- context [if ?b then _ else _] => destruct b eqn:?
           end;
    cbn; intuition congruence.
Qed.

Lemma committed_render (c n : Component) :
  committed c -> callback_shape c n -> committed (render c n).
Proof.
  intros [Hp Ht H0 Hm0 Hm Hs] (Rp & Rt & Rm & Hcase).
  constructor; unfold refractory, computeIsRefractory in *;
    autorewrite with render.
  - rewrite render_membranePotentialRef.
    destruct (Object_is _ _) eqn:E; [|reflexivity].
    apply Object_is_eq in E. congruence.
  - rewrite render_thresholdRef.
    destruct (Object_is _ _) eqn:E; [|reflexivity].
    apply Object_is_eq in E. congruence.
  - destruct Hcase as [(T & _)|[(T & _)|[(T & _)|(T & _)]]]; lia.
  - intros Z0. rewrite render_isRefractory.
    destruct (Z.eqb_spec (time c) (time n)) as [E|E].
    + rewrite Rm. apply Hm0. lia.
    + unfold computeIsRefractory.
      destruct Hcase as [(T & _)|[(T & _)|[(T & _)|(T & L & _)]]];
        try lia.
      rewrite L. reflexivity.
  - rewrite render_isRefractory.
    destruct (Z.eqb_spec (time c) (time n)) as [E|E].
    + rewrite Rm. intros M. specialize (Hm M).
      destruct Hcase as [(T & L & _)|[(T & L & _)|[(T & L & _)|(T & L & _)]]];
        rewrite L.
      * rewrite <- E. exact Hm.
      * rewrite <- E, Z.sub_diag. reflexivity.
      * lia.
      * rewrite Hm0 in M by lia. discriminate.
    + unfold computeIsRefractory. auto.
  - destruct Hcase as [(_ & _ & S)|[(_ & _ & S)|[(_ & _ & S)|(_ & _ & S)]]];
      rewrite S; auto using appendSpikeTime_length.
    cbn. unfold MAX_SPIKES_DISPLAY. lia.
Qed.

Lemma committed_stepIn (A : Arithmetic) (c : Component) (e : Event) :
  committed c -> committed (stepIn A c e).
Proof.
  intros H. unfold stepIn. apply committed_render; [exact H|].
  apply handleIn_shape.
Qed.

Lemma committed_runIn (A : Arithmetic) (c : Component)
    (events : list Event) :
  committed c -> committed (runIn A c events).
Proof.
  unfold runIn. revert c.
  induction events as [|e rest IH]; intros c H; cbn [fold_left].
  - exact H.
  - apply IH, committed_stepIn, H.
Qed.

Lemma snapshot_inv (c c' : Component) :
  snapshot c = snapshot c' ->
  membranePotential c = membranePotential c' /\
  threshold c = threshold c' /\
  spikeCount c = spikeCount c'.
Proof. unfold snapshot. intros H. injection H. auto. Qed.

(** Typing into the custom input changes that cell only. *)
Lemma step_ChangeCustomSpikeInput (c : Component) (text : string) :
  step c (ChangeCustomSpikeInput text) = setCustomSpikeInput text c.
Proof.
  unfold step, render. cbn [handle].
  change (time (setCustomSpikeInput text c)) with (time c).
  rewrite Z.eqb_refl.
  change (membranePotential (setCustomSpikeInput text c))
    with (membranePotential c).
  rewrite Object_is_refl.
  change (threshold (setCustomSpikeInput text c)) with (threshold c).
  rewrite Object_is_refl. reflexivity.
Qed.

(** ** Reset *)

(** C8: whatever the component went through, one click on Reset leaves
    potential 0, threshold 1.0, time 0, no data points, spike count 0, no
    spike times and no last spike time: the engine state of [initial]. *)
Theorem reset_restores_initial_state (c : Component) :
  let c' := step c ClickReset in
  membranePotential c' = of_Z 0 /\
  threshold c' = dec 1 1 /\
  time c' = 0 /\
  dataPoints c' = [] /\
  spikeCount c' = 0 /\
  spikeTimes c' = [] /\
  lastSpikeTimeRef c' = None /\
  snapshot c' = snapshot initial.
Proof.
  cbv zeta. unfold step. rewrite snapshot_render.
  autorewrite with render. cbn. repeat split.
Qed.

(** C10: a click on Reset leaves the four configuration parameters and
    the running flag as they were. *)
Theorem reset_keeps_configuration (c : Component) :
  let c' := step c ClickReset in
  decayRate c' = decayRate c /\
  thresholdDecayRate c' = thresholdDecayRate c /\
  minThreshold c' = minThreshold c /\
  spikeMagnitude c' = spikeMagnitude c /\
  isRunning c' = isRunning c.
Proof.
  cbv zeta. unfold step. autorewrite with render. cbn. repeat split.
Qed.

(** ** The custom input filter *)

Lemma stepIn_ChangeCustomSpikeInput (A : Arithmetic) (c : Component)
    (text : string) :
  stepIn A c (ChangeCustomSpikeInput text) = setCustomSpikeInput text c.
Proof. exact (step_ChangeCustomSpikeInput c text). Qed.




(** ** Stimuli during the refractory period *)

(** What the guard of line 62 does give: while the memo is set, a click on
    Send Spike changes no cell. *)
Lemma sendSpike_dropped_while_memo_set (c : Component) :
  isRefractory c = true -> step c ClickSendSpike = c.
Proof.
  intros H. unfold step. cbn [handle]. unfold sendSpike. rewrite H.
  apply render_same.
Qed.


(** C1 on the code.  Two frames after a spike at time 0 the neuron is
    refractory, and a custom stimulus of 0.5 still raises the potential:
    [handleCustomSpikeInput] has no refractory guard.  With the simulation
    paused, a third click on Send Spike right after the spike also raises
    the potential: the guard of [sendSpike] reads the memo of line 56,
    which is re-evaluated only when [time] changes. *)
Theorem stimulus_during_refractory_changes_state :
  let c := run initial [ClickSendSpike; ClickSendSpike; Frame; Frame] in
  let p := run initial [ClickPauseResume; ClickSendSpike; ClickSendSpike] in
  (refractory c = true /\
   lastSpikeTimeRef c = Some 0 /\ time c = 2 /\
   snapshot (stimulateCustom "0.5" c) <> snapshot c) /\
  (refractory p = true /\
   isRefractory p = false /\
   snapshot (step p ClickSendSpike) <> snapshot p).
Proof.
  cbv zeta. repeat split; try reflexivity.
  - intros H. apply snapshot_inv in H. destruct H as (H & _).
    vm_compute in H. discriminate H.
  - intros H. apply snapshot_inv in H. destruct H as (H & _).
    vm_compute in H. discriminate H.
Qed.

(** ** Ticks *)

Lemma currentlyRefractory_eq (lastSpike : option Z) (newTime : Z) :
  num_ltb
    match lastSpike with
    | Some lastSpikeTime => of_Z (newTime - lastSpikeTime)
    | None => Infinity
    end (of_Z refractoryPeriod) =
  match lastSpike with
  | None => false
  | Some lastSpikeTime => newTime - lastSpikeTime <? refractoryPeriod
  end.
Proof. destruct lastSpike; [apply num_ltb_of_Z | reflexivity]. Qed.

(** What one tick writes, cell by cell. *)
Lemma tick_cells (c : Component) :
  let n := tick c in
  time n = time c + 1 /\
  lastSpikeTimeRef n = lastSpikeTimeRef c /\
  threshold n =
    (if computeIsRefractory n then threshold c
     else Math_max (minThreshold c)
            (num_sub (threshold c) (thresholdDecayRate c))) /\
  membranePotential n =
    Math_max (of_Z 0)
      (num_sub (membranePotential c)
         (num_mul (decayRate c) (of_Z timeStep))) /\
  dataPoints n =
    slice_last MAX_DATA_POINTS (dataPoints c ++ [newDataPoint c]) /\
  spikeCount n = spikeCount c /\
  spikeTimes n = spikeTimes c /\
  isRunning n = isRunning c /\
  decayRate n = decayRate c /\
  thresholdDecayRate n = thresholdDecayRate c /\
  minThreshold n = minThreshold c /\
  spikeMagnitude n = spikeMagnitude c /\
  customSpikeInput n = customSpikeInput c.
Proof.
  cbv zeta. unfold tick. rewrite currentlyRefractory_eq.
  unfold computeIsRefractory, newDataPoint, timeStep.
  destruct (lastSpikeTimeRef c) as [l|] eqn:L;
    [destruct (time c + 1 - l <? refractoryPeriod) eqn:R|];
    cbn; rewrite ?L, ?R; repeat split.
Qed.

Lemma step_Frame (c : Component) :
  isRunning c = true -> step c Frame = render c (tick c).
Proof.
  intros H. unfold step. cbn [handle]. unfold simulationLoop.
  rewrite H. reflexivity.
Qed.

Lemma refractory_render (prev next : Component) :
  refractory (render prev next) = computeIsRefractory next.
Proof.
  unfold refractory, computeIsRefractory. autorewrite with render.
  reflexivity.
Qed.

(** One frame of a running simulation, on the cells the threshold
    scenarios need. *)
Lemma frame_threshold (c : Component) :
  isRunning c = true ->
  let c' := step c Frame in
  isRunning c' = true /\
  time c' = time c + 1 /\
  lastSpikeTimeRef c' = lastSpikeTimeRef c /\
  minThreshold c' = minThreshold c /\
  thresholdDecayRate c' = thresholdDecayRate c /\
  threshold c' =
    (if refractory c' then threshold c
     else Math_max (minThreshold c)
            (num_sub (threshold c) (thresholdDecayRate c))).
Proof.
  intros H. cbv zeta. rewrite step_Frame by exact H.
  rewrite refractory_render. autorewrite with render.
  destruct (tick_cells c)
    as (T & L & Th & _ & _ & _ & _ & R & _ & D & M & _).
  rewrite R, T, L, M, D, Th, H. repeat split.
Qed.

(** C9: a tick adds 1 to [time], evaluates the refractory condition on the
    new time, and sets [threshold] to [max(minThreshold, threshold -
    thresholdDecayRate)] exactly when that condition is false.  From a
    spike at time 0 with threshold 1.1, floor 1.0 and decay 0.01, four
    ticks leave the threshold at 1.1 and the fifth, at time 5 where
    [5 - 0 < 5] is false, brings it to 1.09. *)
Theorem tick_relaxes_threshold_when_not_refractory (c : Component) :
  isRunning c = true ->
  (let c' := step c Frame in
   time c' = time c + 1 /\
   refractory c' =
     match lastSpikeTimeRef c with
     | None => false
     | Some lastSpikeTime => time c + 1 - lastSpikeTime <? refractoryPeriod
     end /\
   threshold c' =
     (if refractory c' then threshold c
      else Math_max (minThreshold c)
             (num_sub (threshold c) (thresholdDecayRate c)))) /\
  (lastSpikeTimeRef c = Some 0 -> time c = 0 ->
   threshold c = dec 11 10 -> minThreshold c = dec 1 1 ->
   thresholdDecayRate c = dec 1 100 ->
   let c4 := run c [Frame; Frame; Frame; Frame] in
   let c5 := step c4 Frame in
   time c4 = 4 /\ threshold c4 = dec 11 10 /\
   time c5 = 5 /\ (5 - 0 <? refractoryPeriod) = false /\
   refractory c5 = false /\ threshold c5 = dec 109 100).
Proof.
  intros H. split.
  - cbv zeta. destruct (frame_threshold c H) as (_ & T & L & _ & _ & Th).
    repeat split; try assumption.
    unfold refractory, computeIsRefractory. rewrite L, T. reflexivity.
  - intros L0 T0 Th0 M0 D0. cbv zeta. cbn [run fold_left].
    destruct (frame_threshold c H) as (R1 & T1 & L1 & M1 & D1 & Th1).
    set (c1 := step c Frame) in *.
    destruct (frame_threshold c1 R1) as (R2 & T2 & L2 & M2 & D2 & Th2).
    set (c2 := step c1 Frame) in *.
    destruct (frame_threshold c2 R2) as (R3 & T3 & L3 & M3 & D3 & Th3).
    set (c3 := step c2 Frame) in *.
    destruct (frame_threshold c3 R3) as (R4 & T4 & L4 & M4 & D4 & Th4).
    set (c4 := step c3 Frame) in *.
    destruct (frame_threshold c4 R4) as (R5 & T5 & L5 & M5 & D5 & Th5).
    set (c5 := step c4 Frame) in *.
    unfold refractory, computeIsRefractory in *.
    rewrite L1, L0, T1, T0 in Th1. cbn in Th1.
    rewrite L2, L1, L0, T2, T1, T0 in Th2. cbn in Th2.
    rewrite L3, L2, L1, L0, T3, T2, T1, T0 in Th3. cbn in Th3.
    rewrite L4, L3, L2, L1, L0, T4, T3, T2, T1, T0 in Th4. cbn in Th4.
    rewrite L5, L4, L3, L2, L1, L0, T5, T4, T3, T2, T1, T0 in Th5.
    cbn in Th5.
    rewrite L5, L4, L3, L2, L1, L0, T5, T4, T3, T2, T1, T0.
    assert (threshold c4 = dec 11 10) as E4 by congruence.
    repeat split; try reflexivity; try exact E4.
    rewrite Th5, E4, M4, M3, M2, M1, M0, D4, D3, D2, D1, D0.
    apply Finite_ext. reflexivity.
Qed.

Lemma tick_relaxes_threshold_when_not_refractory_witness :
  let c := run initial [ClickSendSpike; ClickSendSpike] in
  lastSpikeTimeRef c = Some 0 /\ threshold c = dec 11 10 /\
  time (step (run c [Frame; Frame; Frame; Frame]) Frame) = 5 /\
  threshold (step (run c [Frame; Frame; Frame; Frame]) Frame) = dec 109 100.
Proof.
  cbv zeta.
  assert (isRunning (run initial [ClickSendSpike; ClickSendSpike]) = true)
    as R by (vm_compute; reflexivity).
  assert (lastSpikeTimeRef (run initial [ClickSendSpike; ClickSendSpike])
          = Some 0) as L by (vm_compute; reflexivity).
  assert (time (run initial [ClickSendSpike; ClickSendSpike]) = 0)
    as T by (vm_compute; reflexivity).
  assert (threshold (run initial [ClickSendSpike; ClickSendSpike])
          = dec 11 10) as Th
    by (vm_compute; apply Finite_ext; reflexivity).
  assert (minThreshold (run initial [ClickSendSpike; ClickSendSpike])
          = dec 1 1) as M by (vm_compute; apply Finite_ext; reflexivity).
  assert (thresholdDecayRate (run initial [ClickSendSpike; ClickSendSpike])
          = dec 1 100) as D by (vm_compute; apply Finite_ext; reflexivity).
  destruct (tick_relaxes_threshold_when_not_refractory _ R) as (_ & S).
  destruct (S L T Th M D) as (_ & _ & T5 & _ & _ & Th5).
  repeat split; assumption.
Defined.

(** ** Lists: the two caps *)

Lemma slice_last_length {A : Type} (n : nat) (l : list A) :
  List.length (slice_last n l) = Nat.min n (List.length l).
Proof. unfold slice_last. rewrite length_skipn. lia. Qed.

Lemma appendSpikeTime_slice (l : list Z) (t : Z) :
  (List.length l <= MAX_SPIKES_DISPLAY)%nat ->
  appendSpikeTime l t = slice_last MAX_SPIKES_DISPLAY (l ++ [t]).
Proof.
  intros H. unfold appendSpikeTime, slice_last.
  assert (List.length (l ++ [t]) = S (List.length l)) as E
    by (rewrite length_app; simpl; lia).
  rewrite E.
  destruct (Nat.ltb_spec MAX_SPIKES_DISPLAY (S (List.length l))) as [L|L].
  - replace (S (List.length l) - MAX_SPIKES_DISPLAY)%nat with 1%nat by lia.
    destruct (l ++ [t]); reflexivity.
  - replace (S (List.length l) - MAX_SPIKES_DISPLAY)%nat with 0%nat by lia.
    reflexivity.
Qed.

(** C2, as the code has it: the data point a tick appends carries the new
    time and the potential and threshold held before the tick, because the
    updater of line 102 reads the mirror refs, which the effects refresh
    only after the render; the array keeps its last 1000 entries. *)
Theorem tick_sample_records_values_before_tick (events : list Event) :
  let c := run initial events in
  isRunning c = true ->
  let c' := step c Frame in
  time c' = time c + 1 /\
  dataPoints c' =
    slice_last MAX_DATA_POINTS
      (dataPoints c ++
       [DataPoint.mk (time c') (membranePotential c) (threshold c)]) /\
  (List.length (dataPoints c') <= MAX_DATA_POINTS)%nat.
Proof.
  cbv zeta. intros H.
  destruct (committed_reachable events) as [Hp Ht _ _ _ _].
  rewrite step_Frame by exact H. autorewrite with render.
  destruct (tick_cells (run initial events)) as (T & _ & _ & _ & D & _).
  rewrite T, D. unfold newDataPoint, timeStep. rewrite Hp, Ht.
  repeat split. rewrite slice_last_length. lia.
Qed.

Lemma tick_sample_records_values_before_tick_witness :
  let c := run initial [ClickSendSpike] in
  isRunning c = true /\
  dataPoints (step c Frame) =
    slice_last MAX_DATA_POINTS
      (dataPoints c ++
       [DataPoint.mk (time (step c Frame)) (membranePotential c)
          (threshold c)]).
Proof.
  cbv zeta.
  assert (isRunning (run initial [ClickSendSpike]) = true) as R
    by (vm_compute; reflexivity).
  split; [exact R|].
  apply (tick_sample_records_values_before_tick [ClickSendSpike] R).
Defined.

(** C2 as stated fails: after a stimulus of 0.5 the tick at time 1 appends
    a data point with potential 0.5, while the potential that tick's decay
    produces is 0.49. *)
Lemma tick_sample_is_not_post_decay :
  let c := run initial [ClickSendSpike] in
  let c' := step c Frame in
  isRunning c = true /\
  dataPoints c' <>
    slice_last MAX_DATA_POINTS
      (dataPoints c ++
       [DataPoint.mk (time c') (membranePotential c') (threshold c')]).
Proof.
  cbv zeta. split; [reflexivity|].
  intros H. vm_compute in H. discriminate H.
Qed.

(** ** Stimuli outside the refractory period *)

Lemma stimulus_outcome_snapshot (m : number) (c d c' d' : Component) :
  snapshot c = snapshot d -> snapshot c' = snapshot d' ->
  stimulus_outcome m c c' -> stimulus_outcome m d d'.
Proof.
  unfold snapshot, stimulus_outcome, spike_outcome, accumulate_outcome.
  intros H H'. injection H as -> -> -> _ -> -> ->.
  injection H' as -> -> _ _ -> -> ->. auto.
Qed.

Lemma stimulusUpdater_outcome (m : number) (c : Component) :
  thresholdRef c = threshold c ->
  (List.length (spikeTimes c) <= MAX_SPIKES_DISPLAY)%nat ->
  stimulus_outcome m c (stimulusUpdater m c).
Proof.
  intros Href Hlen.
  unfold stimulus_outcome, stimulusUpdater. rewrite Href.
  destruct (num_geb (num_add (membranePotential c) m) (threshold c)).
  - split.
    + unfold spike_outcome. cbn.
      rewrite appendSpikeTime_slice by exact Hlen. repeat split.
    + unfold accumulate_outcome. cbn. intros (_ & _ & H & _). lia.
  - split.
    + unfold accumulate_outcome. cbn. repeat split.
    + unfold spike_outcome. cbn. intros (_ & _ & H & _). lia.
Qed.

Lemma stimulus_outcomeIn_snapshot (A : Arithmetic) (m : number)
    (c d c' d' : Component) :
  snapshot c = snapshot d -> snapshot c' = snapshot d' ->
  stimulus_outcomeIn A m c c' -> stimulus_outcomeIn A m d d'.
Proof.
  unfold snapshot, stimulus_outcomeIn, spike_outcomeIn, accumulate_outcomeIn.
  intros H H'. injection H as -> -> -> _ -> -> ->.
  injection H' as -> -> _ _ -> -> ->. auto.
Qed.

Lemma stimulusUpdaterIn_outcome (A : Arithmetic) (m : number)
    (c : Component) :
  thresholdRef c = threshold c ->
  (List.length (spikeTimes c) <= MAX_SPIKES_DISPLAY)%nat ->
  stimulus_outcomeIn A m c (stimulusUpdaterIn A m c).
Proof.
  intros Href Hlen.
  unfold stimulus_outcomeIn, stimulusUpdaterIn. rewrite Href.
  destruct (num_geb (js_add A (membranePotential c) m) (threshold c)).
  - split.
    + unfold spike_outcomeIn. cbn.
      rewrite appendSpikeTime_slice by exact Hlen. repeat split.
    + unfold accumulate_outcomeIn. cbn. intros (_ & _ & H & _). lia.
  - split.
    + unfold accumulate_outcomeIn. cbn. repeat split.
    + unfold spike_outcomeIn. cbn. intros (_ & _ & H & _). lia.
Qed.

(** C4: outside the refractory period a stimulus does one of two things,
    decided by [potential + magnitude >= threshold] on the sum as the
    platform computes it.  If it holds, a spike: the last spike time and
    the new entry of [spikeTimes] are the current time, the threshold
    grows by 0.1, the spike count by 1, the potential becomes 0.  If not,
    the potential becomes the sum and the other four cells keep their
    values.  The outcome that was not taken does not hold.  This is so
    for the Send Spike button, with [spikeMagnitude], and for the custom
    input, with the parsed text, whatever the arithmetic. *)
Theorem stimulus_spikes_or_accumulates (A : Arithmetic)
    (events : list Event) (text : string) :
  let c := runIn A initial events in
  refractory c = false ->
  stimulus_outcomeIn A (spikeMagnitude c) c (stepIn A c ClickSendSpike) /\
  (isNaN (js_parseFloat A text) = false ->
   stimulus_outcomeIn A (js_parseFloat A text) c
     (stimulateCustomIn A text c)).
Proof.
  cbv zeta. intros Hfresh.
  destruct (committed_runIn A initial events committed_initial)
    as [_ Ht _ _ Hm Hs].
  set (c := runIn A initial events) in *.
  assert (isRefractory c = false) as Hmemo.
  { destruct (isRefractory c); [|reflexivity].
    rewrite Hm in Hfresh by reflexivity. discriminate. }
  split.
  - apply (stimulus_outcomeIn_snapshot A _ c c
             (stimulusUpdaterIn A (spikeMagnitude c) c));
      [reflexivity| |apply stimulusUpdaterIn_outcome; assumption].
    unfold stepIn. rewrite snapshot_render. cbn [handleIn].
    unfold sendSpikeIn. rewrite Hmemo. reflexivity.
  - intros Hnum. unfold stimulateCustomIn.
    rewrite stepIn_ChangeCustomSpikeInput.
    set (entered := setCustomSpikeInput text c).
    apply (stimulus_outcomeIn_snapshot A _ entered c
             (stimulusUpdaterIn A (js_parseFloat A text) entered));
      [reflexivity| |apply stimulusUpdaterIn_outcome; assumption].
    unfold stepIn. rewrite snapshot_render. cbn [handleIn].
    unfold handleCustomSpikeInputIn.
    change (customSpikeInput entered) with text. rewrite Hnum. reflexivity.
Qed.

(** In binary64 a potential of [1 - 2^-53] and a magnitude of [2^-54] add
    up to 1, which reaches the threshold 1: the stimulus fires.  The
    exact sum is below 1. *)
Lemma stimulus_spikes_or_accumulates_witness :
  let session :=
    [ChangeCustomSpikeInput "0.9999999999999999"; ClickSendCustomSpike] in
  let text := "5.551115123125783e-17"%string in
  let c := runIn binary64 initial session in
  refractory c = false /\
  stimulus_outcomeIn binary64 (spikeMagnitude c) c
    (stepIn binary64 c ClickSendSpike) /\
  stimulus_outcomeIn binary64 (js_parseFloat binary64 text) c
    (stimulateCustomIn binary64 text c) /\
  spikeCount (stimulateCustomIn binary64 text c) = 1 /\
  spikeCount (stimulateCustomIn exact text (runIn exact initial session)) = 0.
Proof.
  cbv zeta.
  set (session :=
         [ChangeCustomSpikeInput "0.9999999999999999"; ClickSendCustomSpike]).
  set (text := "5.551115123125783e-17"%string).
  assert (refractory (runIn binary64 initial session) = false) as R
    by (vm_compute; reflexivity).
  assert (isNaN (js_parseFloat binary64 text) = false) as N
    by (vm_compute; reflexivity).
  destruct (stimulus_spikes_or_accumulates binary64 session text R)
    as (S1 & S2).
  split; [exact R|]. split; [exact S1|]. split; [exact (S2 N)|].
  split; vm_compute; reflexivity.
Defined.

(** ** Runs: prefixes *)

Lemma forallb_firstn {A : Type} (f : A -> bool) (n : nat) (l : list A) :
  forallb f l = true -> forallb f (firstn n l) = true.
Proof.
  revert n. induction l as [|x l IH]; intros [|n]; cbn; auto.
  rewrite !andb_true_iff. intros [Hx Hl]. auto.
Qed.

Lemma along_firstn (P : Component -> Event -> bool) (n : nat)
    (events : list Event) (c : Component) :
  along P c events = true -> along P c (firstn n events) = true.
Proof.
  revert n c. induction events as [|e rest IH]; intros [|n] c; cbn; auto.
  rewrite !andb_true_iff. intros [He Hr]. auto.
Qed.

(** ** Numbers: finiteness *)

Lemma isFinite_inv (x : number) :
  isFinite x = true -> exists q, x = Finite q.
Proof. destruct x; try discriminate. eauto. Qed.

Lemma finite_nonneg_inv (x : number) :
  finite_nonneg x = true ->
  exists q, x = Finite q /\ num_leb (of_Z 0) (Finite q) = true.
Proof.
  unfold finite_nonneg. rewrite andb_true_iff. intros [F L].
  apply isFinite_inv in F. destruct F as [q ->]. eauto.
Qed.

Lemma finite_nonneg_Finite (q : Qc) :
  num_leb (of_Z 0) (Finite q) = true -> finite_nonneg (Finite q) = true.
Proof. unfold finite_nonneg. cbn [isFinite andb]. auto. Qed.

Lemma finite_nonneg_zero : finite_nonneg (of_Z 0) = true.
Proof. reflexivity. Qed.

Lemma finite_nonneg_decay (p d : Qc) :
  finite_nonneg
    (Math_max (of_Z 0)
       (num_sub (Finite p) (num_mul (Finite d) (of_Z timeStep)))) = true.
Proof.
  unfold of_Z at 2. cbn [num_mul num_sub num_neg num_add].
  unfold of_Z. rewrite Math_max_Finite.
  apply finite_nonneg_Finite. rewrite <- Math_max_Finite.
  apply Math_max_lower.
Qed.

Lemma finite_nonneg_add (x m : number) :
  finite_nonneg x = true -> finite_nonneg m = true ->
  finite_nonneg (num_add x m) = true.
Proof.
  intros Hx Hm.
  apply finite_nonneg_inv in Hx. destruct Hx as (a & -> & Ha).
  apply finite_nonneg_inv in Hm. destruct Hm as (b & -> & Hb).
  apply finite_nonneg_Finite. apply (num_leb_add_nonneg a b Ha Hb).
Qed.

(** The scenario of two stimuli of 0.5 from the defaults: the first
    accumulates, the second reaches the threshold 1.0 and fires. *)
Example two_half_stimuli_fire_a_spike :
  let c1 := step initial ClickSendSpike in
  let c2 := step c1 ClickSendSpike in
  membranePotential c1 = dec 1 2 /\ spikeCount c1 = 0 /\
  lastSpikeTimeRef c2 = Some 0 /\ threshold c2 = dec 11 10 /\
  spikeCount c2 = 1 /\ spikeTimes c2 = [0] /\
  membranePotential c2 = of_Z 0.
Proof.
  cbv zeta. repeat split; vm_compute; try reflexivity;
    apply Finite_ext; reflexivity.
Qed.

(** ** The sign of the potential *)

Lemma stimulusUpdater_cells (m : number) (c : Component) :
  let n := stimulusUpdater m c in
  (membranePotential n = of_Z 0 \/
   membranePotential n = num_add (membranePotential c) m) /\
  (threshold n = threshold c \/
   threshold n = num_add (threshold c) (dec 1 10)) /\
  isRunning n = isRunning c /\
  decayRate n = decayRate c /\
  thresholdDecayRate n = thresholdDecayRate c /\
  minThreshold n = minThreshold c /\
  spikeMagnitude n = spikeMagnitude c /\
  customSpikeInput n = customSpikeInput c.
Proof.
  cbv zeta. unfold stimulusUpdater.
  destruct (num_geb _ _); cbn; auto 10.
Qed.

Lemma potential_safe_render (prev next : Component) :
  potential_safe next -> potential_safe (render prev next).
Proof.
  intros [H1 H2 H3 H4]. constructor; autorewrite with render; assumption.
Qed.

Lemma potential_safe_stimulus (m : number) (c : Component) :
  finite_nonneg m = true -> potential_safe c ->
  potential_safe (stimulusUpdater m c).
Proof.
  intros Hm [H1 H2 H3 H4].
  destruct (stimulusUpdater_cells m c)
    as (P & _ & _ & D & _ & _ & M & C).
  constructor; rewrite ?D, ?M, ?C; try assumption.
  destruct P as [-> | ->];
    [apply finite_nonneg_zero | apply finite_nonneg_add; assumption].
Qed.

Lemma potential_safe_handle (c : Component) (e : Event) :
  nonneg_stimuli e = true -> potential_safe c ->
  potential_safe (handle c e).
Proof.
  intros He Hc. destruct e; cbn [handle nonneg_stimuli finite_config] in *.
  - unfold simulationLoop. destruct (isRunning c); cbn [negb]; [|exact Hc].
    destruct Hc as [H1 H2 H3 H4].
    destruct (tick_cells c)
      as (_ & _ & _ & P & _ & _ & _ & _ & D & _ & _ & M & C).
    constructor; rewrite ?D, ?M, ?C; try assumption.
    rewrite P.
    apply finite_nonneg_inv in H1. destruct H1 as (p & -> & _).
    apply isFinite_inv in H3. destruct H3 as (d & ->).
    apply finite_nonneg_decay.
  - unfold sendSpike. destruct (isRefractory c); [exact Hc|].
    apply potential_safe_stimulus; [apply Hc | exact Hc].
  - destruct Hc; constructor; assumption.
  - destruct Hc as [H1 H2 H3 H4]. constructor; cbn; auto.
  - unfold handleCustomSpikeInput.
    destruct (isNaN (parseFloat (customSpikeInput c))) eqn:N;
      cbn [negb]; [exact Hc|].
    assert (finite_nonneg (parseFloat (customSpikeInput c)) = true) as Hm.
    { destruct Hc as [_ _ _ H4]. rewrite N in H4. exact H4. }
    destruct (potential_safe_stimulus _ c Hm Hc) as [K1 K2 K3 _].
    constructor; cbn; auto.
  - destruct Hc as [H1 H2 H3 H4]. constructor; cbn; auto.
  - destruct Hc as [H1 H2 H3 H4]. constructor; cbn; auto.
  - destruct Hc as [H1 H2 H3 H4]. constructor; cbn; auto.
  - destruct Hc as [H1 H2 H3 H4]. constructor; cbn; auto.
  - destruct Hc as [H1 H2 H3 H4]. constructor; cbn; auto.
Qed.

Lemma potential_safe_initial : potential_safe initial.
Proof. constructor; reflexivity. Qed.

Lemma potential_safe_run (events : list Event) (c : Component) :
  forallb nonneg_stimuli events = true -> potential_safe c ->
  potential_safe (run c events).
Proof.
  revert c. induction events as [|e rest IH]; intros c; cbn; auto.
  rewrite andb_true_iff. intros [He Hr] Hc.
  apply IH; [exact Hr|].
  unfold step. apply potential_safe_render, potential_safe_handle; assumption.
Qed.

(** C3, as the code has it: in a session whose stimulus magnitudes (slider
    value and parsed custom text) are finite and not negative and whose
    configuration values are finite, the potential is a finite number that
    is not negative after every call, that is, after every prefix of the
    events. *)
Theorem potential_nonneg_for_nonneg_stimuli (events : list Event) (n : nat) :
  forallb nonneg_stimuli events = true ->
  let c := run initial (firstn n events) in
  isFinite (membranePotential c) = true /\
  num_geb (membranePotential c) (of_Z 0) = true.
Proof.
  intros H. cbv zeta.
  destruct (potential_safe_run (firstn n events) initial
              (forallb_firstn _ n _ H) potential_safe_initial) as [P _ _ _].
  unfold finite_nonneg in P. apply andb_true_iff in P. exact P.
Qed.

Lemma potential_nonneg_for_nonneg_stimuli_witness :
  let events :=
    [ClickSendSpike; Frame; ChangeCustomSpikeInput "0.7";
     ClickSendCustomSpike; Frame] in
  forallb nonneg_stimuli events = true /\
  num_geb (membranePotential (run initial (firstn 4 events))) (of_Z 0) = true.
Proof.
  cbv zeta.
  assert (forallb nonneg_stimuli
            [ClickSendSpike; Frame; ChangeCustomSpikeInput "0.7";
             ClickSendCustomSpike; Frame] = true) as H
    by (vm_compute; reflexivity).
  split; [exact H|].
  apply (potential_nonneg_for_nonneg_stimuli _ 4 H).
Defined.

(** C3 as stated fails: the custom text [-1] is a finite magnitude, and
    the stimulus leaves the potential at -1. *)
Lemma negative_stimulus_makes_potential_negative :
  isFinite (parseFloat "-1") = true /\
  membranePotential (stimulateCustom "-1" initial) = of_Z (-1) /\
  num_geb (membranePotential (stimulateCustom "-1" initial)) (of_Z 0) = false.
Proof.
  repeat split; reflexivity.
Qed.

(** ** The threshold floor *)

Lemma threshold_finite_render (prev next : Component) :
  threshold_finite next -> threshold_finite (render prev next).
Proof.
  intros [H1 H2 H3]. constructor; autorewrite with render; assumption.
Qed.

Lemma floor_ok_render (prev next : Component) :
  floor_ok (render prev next) = floor_ok next.
Proof. unfold floor_ok. autorewrite with render. reflexivity. Qed.

Lemma isFinite_relaxed (m t r : Qc) :
  isFinite (Math_max (Finite m) (num_sub (Finite t) (Finite r))) = true.
Proof.
  cbn [num_sub num_neg num_add]. rewrite Math_max_Finite. reflexivity.
Qed.

Lemma floor_relaxed (m t r : Qc) :
  num_geb (Math_max (Finite m) (num_sub (Finite t) (Finite r))) (Finite m)
  = true.
Proof.
  unfold num_geb. cbn [num_sub num_neg num_add]. apply Math_max_lower.
Qed.

Lemma threshold_finite_handle (c : Component) (e : Event) :
  finite_config e = true -> threshold_finite c ->
  threshold_finite (handle c e).
Proof.
  intros He [H1 H2 H3].
  destruct (isFinite_inv _ H1) as (t & Et).
  destruct (isFinite_inv _ H2) as (m & Em).
  destruct (isFinite_inv _ H3) as (r & Er).
  destruct e; cbn [handle finite_config] in *;
    try (constructor; cbn; assumption).
  - unfold simulationLoop. destruct (isRunning c); cbn [negb];
      [|constructor; assumption].
    destruct (tick_cells c)
      as (_ & _ & Th & _ & _ & _ & _ & _ & _ & D & M & _).
    constructor; rewrite ?D, ?M; try assumption.
    rewrite Th. destruct (computeIsRefractory _); [assumption|].
    rewrite Et, Em, Er. apply isFinite_relaxed.
  - unfold sendSpike. destruct (isRefractory c); [constructor; assumption|].
    destruct (stimulusUpdater_cells (spikeMagnitude c) c)
      as (_ & Th & _ & _ & D & M & _).
    constructor; rewrite ?D, ?M; try assumption.
    destruct Th as [-> | ->]; [assumption|]. rewrite Et. reflexivity.
  - unfold handleCustomSpikeInput.
    destruct (isNaN _); cbn [negb]; [constructor; assumption|].
    destruct (stimulusUpdater_cells (parseFloat (customSpikeInput c)) c)
      as (_ & Th & _ & _ & D & M & _).
    constructor; cbn; rewrite ?D, ?M; try assumption.
    destruct Th as [-> | ->]; [assumption|]. rewrite Et. reflexivity.
Qed.

Lemma keeps_floor_finite (c : Component) (e : Event) :
  keeps_floor c e = true -> finite_config e = true.
Proof.
  destruct e; cbn; auto; try discriminate.
  rewrite andb_true_iff. tauto.
Qed.

Lemma floor_ok_handle (c : Component) (e : Event) :
  keeps_floor c e = true -> threshold_finite c -> floor_ok c = true ->
  floor_ok (handle c e) = true.
Proof.
  intros He [H1 H2 H3] Hf. unfold floor_ok, num_geb in *.
  destruct (isFinite_inv _ H1) as (t & Et).
  destruct (isFinite_inv _ H2) as (m & Em).
  destruct (isFinite_inv _ H3) as (r & Er).
  destruct e; cbn [handle keeps_floor finite_config] in *;
    try discriminate; try exact Hf.
  - unfold simulationLoop. destruct (isRunning c); cbn [negb]; [|exact Hf].
    destruct (tick_cells c)
      as (_ & _ & Th & _ & _ & _ & _ & _ & _ & _ & M & _).
    rewrite M, Th. destruct (computeIsRefractory _); [exact Hf|].
    rewrite Et, Em, Er. apply floor_relaxed.
  - unfold sendSpike. destruct (isRefractory c); [exact Hf|].
    destruct (stimulusUpdater_cells (spikeMagnitude c) c)
      as (_ & Th & _ & _ & _ & M & _).
    rewrite M. destruct Th as [-> | ->]; [exact Hf|].
    rewrite Et, Em in *. apply num_leb_add_tenth, Hf.
  - unfold handleCustomSpikeInput.
    destruct (isNaN _); cbn [negb]; [exact Hf|].
    destruct (stimulusUpdater_cells (parseFloat (customSpikeInput c)) c)
      as (_ & Th & _ & _ & _ & M & _).
    cbn. rewrite M. destruct Th as [-> | ->]; [exact Hf|].
    rewrite Et, Em in *. apply num_leb_add_tenth, Hf.
  - cbn. apply andb_true_iff in He. destruct He as [Fv Lv].
    destruct (isFinite_inv _ Fv) as (v' & ->).
    rewrite Et, Em in *. apply (num_leb_trans v' m t); assumption.
Qed.

Lemma threshold_finite_initial : threshold_finite initial.
Proof. constructor; reflexivity. Qed.

Lemma threshold_finite_run (events : list Event) (c : Component) :
  forallb finite_config events = true -> threshold_finite c ->
  threshold_finite (run c events).
Proof.
  revert c. induction events as [|e rest IH]; intros c; cbn; auto.
  rewrite andb_true_iff. intros [He Hr] Hc.
  apply IH; [exact Hr|].
  unfold step. apply threshold_finite_render, threshold_finite_handle;
    assumption.
Qed.

Lemma floor_ok_run (events : list Event) (c : Component) :
  along keeps_floor c events = true ->
  threshold_finite c -> floor_ok c = true ->
  floor_ok (run c events) = true.
Proof.
  revert c. induction events as [|e rest IH]; intros c; cbn; auto.
  rewrite andb_true_iff. intros [He Hr] Hc Hf.
  apply IH; [exact Hr| |].
  - unfold step. apply threshold_finite_render, threshold_finite_handle;
      [eapply keeps_floor_finite; eassumption | assumption].
  - unfold step. rewrite floor_ok_render.
    apply floor_ok_handle; assumption.
Qed.

(** C5, as the code has it.  In a run from [initial] with finite slider
    values in which [minThreshold] is only lowered or left alone and there
    is no reset, [threshold >= minThreshold] holds after every call.  After
    any run with finite slider values, also one that raised
    [minThreshold], a tick that is not refractory leaves
    [threshold >= minThreshold]: it sets the threshold to
    [max(minThreshold, threshold - thresholdDecayRate)] with the current
    floor. *)
Theorem threshold_floor_kept_and_restored (events : list Event) (n : nat) :
  (along keeps_floor initial events = true ->
   floor_ok (run initial (firstn n events)) = true) /\
  (forallb finite_config events = true ->
   let c := run initial events in
   isRunning c = true -> refractory (step c Frame) = false ->
   threshold (step c Frame) =
     Math_max (minThreshold c)
       (num_sub (threshold c) (thresholdDecayRate c)) /\
   floor_ok (step c Frame) = true).
Proof.
  split.
  - intros H. apply floor_ok_run;
      [apply along_firstn, H | apply threshold_finite_initial | reflexivity].
  - intros H. cbv zeta. intros R F.
    destruct (threshold_finite_run events initial H threshold_finite_initial)
      as [H1 H2 H3].
    destruct (frame_threshold _ R) as (_ & _ & _ & M & _ & Th).
    cbv zeta in Th. rewrite F in Th. split; [exact Th|].
    unfold floor_ok. rewrite M, Th.
    destruct (isFinite_inv _ H1) as (t & ->).
    destruct (isFinite_inv _ H2) as (m & ->).
    destruct (isFinite_inv _ H3) as (r & ->).
    apply floor_relaxed.
Qed.

Lemma threshold_floor_kept_and_restored_witness :
  let lowering :=
    [ClickSendSpike; ClickSendSpike; ChangeMinThreshold (dec 1 2); Frame] in
  let raising := [ChangeMinThreshold (dec 2 1); ClickSendSpike] in
  (along keeps_floor initial lowering = true /\
   floor_ok (run initial (firstn 4 lowering)) = true) /\
  (forallb finite_config raising = true /\
   floor_ok (run initial raising) = false /\
   floor_ok (step (run initial raising) Frame) = true).
Proof.
  cbv zeta. split.
  - assert (along keeps_floor initial
              [ClickSendSpike; ClickSendSpike;
               ChangeMinThreshold (dec 1 2); Frame] = true) as H
      by (vm_compute; reflexivity).
    split; [exact H|].
    apply (proj1 (threshold_floor_kept_and_restored _ 4) H).
  - assert (forallb finite_config
              [ChangeMinThreshold (dec 2 1); ClickSendSpike] = true) as H
      by (vm_compute; reflexivity).
    assert (isRunning
              (run initial [ChangeMinThreshold (dec 2 1); ClickSendSpike])
            = true) as R by (vm_compute; reflexivity).
    assert (refractory
              (step (run initial
                       [ChangeMinThreshold (dec 2 1); ClickSendSpike]) Frame)
            = false) as F by (vm_compute; reflexivity).
    split; [exact H|]. split; [vm_compute; reflexivity|].
    apply (proj2 (threshold_floor_kept_and_restored _ 0) H R F).
Defined.

(** C5 as stated fails: after the floor is raised to 2.0 a stimulus call
    returns with the threshold still at 1.0. *)
Lemma raised_floor_exceeds_threshold :
  let c := run initial [ChangeMinThreshold (dec 2 1); ClickSendSpike] in
  threshold c = dec 1 1 /\ minThreshold c = dec 2 1 /\
  num_geb (threshold c) (minThreshold c) = false.
Proof.
  cbv zeta. repeat split; vm_compute; try reflexivity;
    apply Finite_ext; reflexivity.
Qed.

(** ** The history buffers *)

Lemma slice_last_snoc {A : Type} (n : nat) (l : list A) (x : A) :
  (1 <= n)%nat ->
  slice_last n (slice_last n l ++ [x]) = slice_last n (l ++ [x]).
Proof.
  intros Hn. unfold slice_last.
  rewrite !length_app, length_skipn. cbn [List.length].
  destruct (Nat.le_gt_cases (List.length l) n) as [L|L].
  - replace (List.length l - n)%nat with 0%nat by lia.
    rewrite Nat.sub_0_r. reflexivity.
  - replace (List.length l - (List.length l - n) + 1 - n)%nat
      with 1%nat by lia.
    replace (List.length l + 1 - n)%nat
      with (1 + (List.length l - n))%nat by lia.
    rewrite <- skipn_skipn.
    rewrite (skipn_app (List.length l - n) l [x]).
    replace (List.length l - n - List.length l)%nat with 0%nat by lia.
    reflexivity.
Qed.

Lemma StronglySorted_snoc (l : list Z) (x : Z) :
  StronglySorted Z.le l -> Forall (fun t => t <= x) l ->
  StronglySorted Z.le (l ++ [x]).
Proof.
  induction l as [|a l IH]; intros S F; cbn.
  - constructor; constructor.
  - inversion S; subst. inversion F; subst.
    constructor; [auto|].
    apply Forall_app. split; [assumption|]. constructor; [assumption|constructor].
Qed.

Lemma StronglySorted_skipn (n : nat) (l : list Z) :
  StronglySorted Z.le l -> StronglySorted Z.le (skipn n l).
Proof.
  revert l. induction n as [|n IH]; intros [|a l] S; cbn; auto.
  inversion S; subst. auto.
Qed.

(** An event other than a reset either leaves the spike cells alone or
    records one spike at the current time, and either leaves the sample
    cells alone or advances [time] by 1 and appends one data point. *)
Lemma handle_history_cases (c : Component) (e : Event) :
  e <> ClickReset ->
  let n := handle c e in
  ((spikeCount n = spikeCount c /\ spikeTimes n = spikeTimes c) \/
   (spikeCount n = spikeCount c + 1 /\
    spikeTimes n = appendSpikeTime (spikeTimes c) (time c))) /\
  ((time n = time c /\ dataPoints n = dataPoints c) \/
   (time n = time c + 1 /\
    dataPoints n =
      slice_last MAX_DATA_POINTS (dataPoints c ++ [newDataPoint c]))).
Proof.
  intros Hne. cbv zeta.
  destruct e; try congruence; cbn [handle];
    try (cbn; split; left; split; reflexivity).
  - unfold simulationLoop. destruct (isRunning c); cbn [negb];
      [|split; left; split; reflexivity].
    destruct (tick_cells c) as (T & _ & _ & _ & D & SC & ST & _).
    split; [left|right]; split; assumption.
  - unfold sendSpike, stimulusUpdater.
    destruct (isRefractory c); [split; left; split; reflexivity|].
    destruct (num_geb _ _); cbn; auto.
  - unfold handleCustomSpikeInput, stimulusUpdater.
    destruct (isNaN _); cbn [negb]; [split; left; split; reflexivity|].
    destruct (num_geb _ _); cbn; auto.
Qed.

Lemma Event_is_reset (e : Event) : e = ClickReset \/ e <> ClickReset.
Proof. destruct e; auto; right; discriminate. Qed.

Lemma history_initial : history initial [] [].
Proof. constructor; cbn; try reflexivity; constructor. Qed.

Lemma tickIn_history (A : Arithmetic) (c : Component) :
  let n := tickIn A c in
  time n = time c + 1 /\
  dataPoints n =
    slice_last MAX_DATA_POINTS (dataPoints c ++ [newDataPoint c]) /\
  spikeCount n = spikeCount c /\
  spikeTimes n = spikeTimes c.
Proof.
  cbv zeta. unfold tickIn, newDataPoint, timeStep.
  destruct (negb _); cbn; repeat split.
Qed.

(** What a callback writes to the two buffers, the spike count and the
    time, against what the event should have recorded. *)
Lemma handleIn_history (A : Arithmetic) (c : Component) (e : Event) :
  committed c -> e <> ClickReset ->
  let n := handleIn A c e in
  match spikeOf A c e with
  | Some t =>
      t = time c /\ spikeCount n = spikeCount c + 1 /\
      spikeTimes n = appendSpikeTime (spikeTimes c) (time c)
  | None => spikeCount n = spikeCount c /\ spikeTimes n = spikeTimes c
  end /\
  match sampleOf c e with
  | Some d =>
      time n = time c + 1 /\
      dataPoints n = slice_last MAX_DATA_POINTS (dataPoints c ++ [d])
  | None => time n = time c /\ dataPoints n = dataPoints c
  end.
Proof.
  intros [Hp Ht _ _ _ _] Hne. cbv zeta.
  destruct e; try congruence; cbn [handleIn spikeOf sampleOf];
    try (cbn; split; split; reflexivity).
  - unfold simulationLoopIn. destruct (isRunning c); cbn [negb].
    + destruct (tickIn_history A c) as (T & D & SC & ST).
      unfold newDataPoint, timeStep in D. rewrite Hp, Ht in D. auto.
    + auto.
  - unfold sendSpikeIn, stimulusUpdaterIn, reaches.
    destruct (isRefractory c); [auto|]. rewrite Ht.
    destruct (num_geb _ _); cbn; auto.
  - unfold handleCustomSpikeInputIn, stimulusUpdaterIn, reaches.
    rewrite Ht.
    destruct (isNaN _); cbn [negb]; [auto|].
    destruct (num_geb _ _); cbn; auto.
Qed.

Lemma history_stepIn (A : Arithmetic) (c : Component) (e : Event)
    (spikes : list Z) (samples : list DataPoint.t) :
  committed c ->
  history c spikes samples ->
  history (stepIn A c e)
    match e with
    | ClickReset => []
    | _ => logged spikes (spikeOf A c e)
    end
    match e with
    | ClickReset => []
    | _ => logged samples (sampleOf c e)
    end.
Proof.
  intros Hc [Hst Hdp Hsc Ht Hb Hs].
  destruct (Event_is_reset e) as [-> | Hne].
  - constructor; unfold stepIn; autorewrite with render; cbn;
      try reflexivity; constructor.
  - assert (history (stepIn A c e) (logged spikes (spikeOf A c e))
              (logged samples (sampleOf c e))) as G.
    { unfold stepIn.
      destruct (handleIn_history A c e Hc Hne) as (S & D).
      set (n := handleIn A c e) in *.
      assert (time c <= time n) as Tmono
        by (destruct (sampleOf c e); destruct D as (T & _); lia).
      assert (Forall (fun t => t <= time n) spikes) as Hb'
        by (eapply Forall_impl; [|exact Hb]; cbv beta; intros; lia).
      assert ((List.length (spikeTimes c) <= MAX_SPIKES_DISPLAY)%nat) as Len
        by (rewrite Hst, slice_last_length; lia).
      destruct (spikeOf A c e) as [t|];
        [destruct S as (-> & SC & ST) | destruct S as (SC & ST)];
        (destruct (sampleOf c e) as [d|]; destruct D as (T & DP));
        unfold logged;
        constructor; autorewrite with render;
        rewrite ?ST, ?DP, ?SC, ?length_app; cbn [List.length];
        try assumption; try lia.
      all: try (rewrite Hdp; apply slice_last_snoc;
                unfold MAX_DATA_POINTS; lia).
      all: try (rewrite appendSpikeTime_slice by exact Len;
                rewrite Hst; apply slice_last_snoc;
                unfold MAX_SPIKES_DISPLAY; lia).
      all: try (apply StronglySorted_snoc; assumption).
      all: try (apply Forall_app; split;
                [assumption | constructor; [lia | constructor]]). }
    destruct e; try exact G. congruence.
Qed.

Lemma history_runIn (A : Arithmetic) (events : list Event) (c : Component)
    (spikes : list Z) (samples : list DataPoint.t) :
  committed c ->
  history c spikes samples ->
  history (runIn A c events) (spikeLog A c events spikes)
    (sampleLog A c events samples).
Proof.
  unfold runIn. revert c spikes samples.
  induction events as [|e rest IH]; intros c spikes samples Hc H;
    cbn [fold_left spikeLog sampleLog].
  - exact H.
  - apply IH; [apply committed_stepIn, Hc | apply history_stepIn; assumption].
Qed.

(** C7: after every run from [initial], [spikeTimes] is the last 20
    entries of the log of all spike times since the last reset, in the
    order they were recorded, which is by time; [dataPoints] is the last
    1000 entries of the log of all data points since the last reset.  So
    the lengths are [min 20] of the number of spikes and [min 1000] of the
    number of ticks, which [spikeCount] and [time] count.  The logs are
    [spikeLog] and [sampleLog]: they list what the events of the run
    should have recorded, whatever the arithmetic. *)
Theorem buffers_hold_most_recent_entries (A : Arithmetic)
    (events : list Event) :
  let c := runIn A initial events in
  let spikes := spikeLog A initial events [] in
  let samples := sampleLog A initial events [] in
  (List.length (spikeTimes c) <= 20)%nat /\
  (List.length (dataPoints c) <= 1000)%nat /\
  spikeTimes c = slice_last 20 spikes /\
  dataPoints c = slice_last 1000 samples /\
  spikeCount c = Z.of_nat (List.length spikes) /\
  time c = Z.of_nat (List.length samples) /\
  List.length (spikeTimes c) = Nat.min 20 (List.length spikes) /\
  List.length (dataPoints c) = Nat.min 1000 (List.length samples) /\
  StronglySorted Z.le (spikeTimes c).
Proof.
  cbv zeta.
  destruct (history_runIn A events initial [] [] committed_initial
              history_initial)
    as [Hst Hdp Hsc Ht _ Hs].
  unfold MAX_SPIKES_DISPLAY, MAX_DATA_POINTS in *.
  rewrite Hst, Hdp, !slice_last_length.
  repeat split; try assumption; try lia.
  unfold slice_last. apply StronglySorted_skipn, Hs.
Qed.

(** The logs of a short session: two stimuli below the threshold with a
    tick in between, a stimulus that reaches it, a pause during which a
    frame does nothing, and after the next tick a stimulus dropped by the
    guard of Send Spike. *)
Example logs_of_a_session :
  let events :=
    [ChangeCustomSpikeInput "0.25"; ClickSendCustomSpike; Frame;
     ClickSendSpike; ClickSendSpike; ClickPauseResume; Frame;
     ClickPauseResume; Frame; ClickSendSpike] in
  spikeLog binary64 initial events [] = [1] /\
  List.map DataPoint.time (sampleLog binary64 initial events []) = [1; 2] /\
  spikeTimes (runIn binary64 initial events) = [1] /\
  List.map DataPoint.time (dataPoints (runIn binary64 initial events))
  = [1; 2].
Proof. vm_compute. repeat split; reflexivity. Qed.

(** Twenty-two spikes at times 0, 1, ..., 21, one tick apart: the first
    two have been evicted. *)
Example spikeTimes_after_22_spikes :
  let events :=
    List.concat (repeat [ChangeCustomSpikeInput "9"; ClickSendCustomSpike; Frame]
              22) in
  spikeCount (run initial events) = 22 /\
  spikeTimes (run initial events) =
    [2; 3; 4; 5; 6; 7; 8; 9; 10; 11; 12; 13; 14; 15; 16; 17; 18; 19; 20; 21].
Proof. vm_compute. split; reflexivity. Qed.

(** After 1003 ticks the array holds the data points of ticks 4 to 1003. *)
Example dataPoints_after_1003_ticks :
  let c := run initial (repeat Frame 1003) in
  List.length (dataPoints c) = 1000%nat /\
  option_map DataPoint.time (hd_error (dataPoints c)) = Some 4 /\
  DataPoint.time (last (dataPoints c) (DataPoint.mk 0 NaN NaN)) = 1003.
Proof. vm_compute. repeat split; reflexivity. Qed.

(** * Further properties of the component *)

(** ** Renders that change nothing *)

Lemma render_unchanged (prev next : Component) :
  time prev = time next ->
  membranePotential prev = membranePotential next ->
  threshold prev = threshold next ->
  render prev next = next.
Proof.
  intros T P Th. unfold render. rewrite T, Z.eqb_refl, P, Object_is_refl.
  rewrite Th, Object_is_refl. reflexivity.
Qed.

Lemma step_paused_Frame (c : Component) :
  isRunning c = false -> step c Frame = c.
Proof.
  intros H. unfold step. cbn [handle]. unfold simulationLoop. rewrite H.
  apply render_same.
Qed.

Lemma run_paused_frames (c : Component) (n : nat) :
  isRunning c = false -> run c (repeat Frame n) = c.
Proof.
  intros H. induction n as [|n IH]; cbn; [reflexivity|].
  rewrite step_paused_Frame by exact H. exact IH.
Qed.

(** X1: after every event of every run from mount, the two mirror refs
    hold the potential and the threshold of the state just rendered. *)
Theorem mirror_refs_follow_state (events : list Event) :
  let c := run initial events in
  membranePotentialRef c = membranePotential c /\
  thresholdRef c = threshold c.
Proof.
  cbv zeta. destruct (committed_reachable events) as [Hp Ht _ _ _ _].
  split; assumption.
Qed.

Lemma memo_fresh_after_tick (c : Component) :
  isRunning c = true ->
  isRefractory (step c Frame) = refractory (step c Frame).
Proof.
  intros H. rewrite step_Frame by exact H.
  rewrite render_isRefractory, refractory_render.
  destruct (tick_cells c) as (T & _).
  destruct (Z.eqb_spec (time c) (time (tick c))); [lia | reflexivity].
Qed.

(** X2: the memoised [isRefractory] never reports a refractory period
    that is not there: in every state of a run from mount, if the memo is
    set then [time - lastSpikeTime < 5] holds.  Right after a tick the
    memo and the condition agree. *)
Theorem memo_implies_refractory (events : list Event) :
  let c := run initial events in
  (isRefractory c = true -> refractory c = true) /\
  (isRunning c = true ->
   isRefractory (step c Frame) = refractory (step c Frame)).
Proof.
  cbv zeta. split.
  - apply (committed_memo _ (committed_reachable events)).
  - apply memo_fresh_after_tick.
Qed.

Lemma memo_implies_refractory_witness :
  let c := run initial [ClickSendSpike; ClickSendSpike; Frame] in
  isRefractory c = true /\ refractory c = true /\
  isRunning c = true /\
  isRefractory (step c Frame) = refractory (step c Frame).
Proof.
  cbv zeta.
  assert (isRefractory
            (run initial [ClickSendSpike; ClickSendSpike; Frame]) = true)
    as M by (vm_compute; reflexivity).
  assert (isRunning
            (run initial [ClickSendSpike; ClickSendSpike; Frame]) = true)
    as R by (vm_compute; reflexivity).
  destruct (memo_implies_refractory [ClickSendSpike; ClickSendSpike; Frame])
    as (H1 & H2).
  split; [exact M|]. split; [exact (H1 M)|]. split; [exact R | exact (H2 R)].
Defined.

(** X3: once a tick has passed, the Send Spike button respects the
    refractory period: if the state a tick leaves is refractory, a click
    on Send Spike changes no cell at all. *)
Theorem sendSpike_dropped_after_tick_while_refractory (c : Component) :
  isRunning c = true ->
  refractory (step c Frame) = true ->
  step (step c Frame) ClickSendSpike = step c Frame.
Proof.
  intros R F. unfold step at 1. cbn [handle]. unfold sendSpike.
  rewrite memo_fresh_after_tick by exact R. rewrite F.
  apply render_same.
Qed.

Lemma sendSpike_dropped_after_tick_while_refractory_witness :
  let c := run initial [ClickSendSpike; ClickSendSpike] in
  isRunning c = true /\ refractory (step c Frame) = true /\
  step (step c Frame) ClickSendSpike = step c Frame.
Proof.
  cbv zeta.
  assert (isRunning (run initial [ClickSendSpike; ClickSendSpike]) = true)
    as R by (vm_compute; reflexivity).
  assert (refractory
            (step (run initial [ClickSendSpike; ClickSendSpike]) Frame)
          = true) as F by (vm_compute; reflexivity).
  split; [exact R|]. split; [exact F|].
  apply (sendSpike_dropped_after_tick_while_refractory _ R F).
Defined.

(** X4: pausing, letting any number of animation frames pass and
    resuming leaves every cell of a running component as it was. *)
Theorem pause_frames_resume_round_trip (c : Component) (n : nat) :
  isRunning c = true ->
  run c ([ClickPauseResume] ++ repeat Frame n ++ [ClickPauseResume]) = c.
Proof.
  intros R. cbn [app run fold_left].
  assert (step c ClickPauseResume = setIsRunning false c) as E.
  { unfold step. cbn [handle]. rewrite R.
    apply render_unchanged; reflexivity. }
  rewrite E. fold (run (setIsRunning false c)
                     (repeat Frame n ++ [ClickPauseResume])).
  unfold run. rewrite fold_left_app.
  fold (run (setIsRunning false c) (repeat Frame n)).
  rewrite run_paused_frames by reflexivity.
  cbn [fold_left]. unfold step. cbn [handle].
  rewrite render_unchanged by reflexivity.
  destruct c; cbn in *. subst. reflexivity.
Qed.

Lemma pause_frames_resume_round_trip_witness :
  isRunning initial = true /\
  run initial ([ClickPauseResume] ++ repeat Frame 3 ++ [ClickPauseResume])
  = initial.
Proof.
  split; [reflexivity|].
  apply (pause_frames_resume_round_trip initial 3). reflexivity.
Defined.

(** ** The spike cells *)

Lemma appendSpikeTime_last (l : list Z) (t : Z) :
  exists older, appendSpikeTime l t = older ++ [t].
Proof.
  unfold appendSpikeTime.
  destruct (Nat.ltb_spec MAX_SPIKES_DISPLAY (List.length (l ++ [t]))) as [L|L].
  - destruct l as [|a l]; cbn in L.
    + unfold MAX_SPIKES_DISPLAY in L. lia.
    + exists l. reflexivity.
  - exists l. reflexivity.
Qed.

(** What a callback does to the spike cells: nothing (while time does not
    go back), one spike recorded at the current time, or a reset. *)
Lemma handle_spike_shape (c : Component) (e : Event) :
  let n := handle c e in
  (lastSpikeTimeRef n = lastSpikeTimeRef c /\
   spikeTimes n = spikeTimes c /\ spikeCount n = spikeCount c /\
   time c <= time n) \/
  (lastSpikeTimeRef n = Some (time c) /\
   spikeTimes n = appendSpikeTime (spikeTimes c) (time c) /\
   spikeCount n = spikeCount c + 1 /\ time n = time c) \/
  (lastSpikeTimeRef n = None /\ spikeTimes n = [] /\ spikeCount n = 0).
Proof.
  destruct e; cbn [handle];
    unfold simulationLoop, tick, sendSpike, handleCustomSpikeInput,
      stimulusUpdater, resetSimulation;
    unfold timeStep;
    repeat match goal with
           | |- context [if ?b then _ else _] => destruct b eqn:?
           end;
    cbn; intuition (auto; lia).
Qed.

Lemma last_spike_recorded_step (c : Component) (e : Event) :
  last_spike_recorded c -> last_spike_recorded (step c e).
Proof.
  unfold last_spike_recorded, step. autorewrite with render.
  intros H.
  destruct (handle_spike_shape c e)
    as [(L & S & C & T) | [(L & S & C & T) | (L & S & C)]];
    rewrite L, ?S, ?C.
  - destruct (lastSpikeTimeRef c) as [t|]; [|exact H].
    destruct H as (Ho & Ht & Hc). repeat split; try assumption. lia.
  - assert (0 <= spikeCount c) as Hc
      by (destruct (lastSpikeTimeRef c);
          [destruct H as (_ & _ & Hc) | destruct H as (_ & Hc)]; lia).
    split; [apply appendSpikeTime_last|]. rewrite T. lia.
  - split; reflexivity.
Qed.

(** X5: in every state of a run from mount the spike cells agree: either
    there is no last spike time, no retained spike time and a count of 0,
    or the last spike time is the newest entry of [spikeTimes], lies at or
    before [time] (so the displayed time since the last spike is not
    negative) and the count is positive. *)
Theorem spike_cells_agree (events : list Event) :
  last_spike_recorded (run initial events).
Proof.
  assert (forall c, last_spike_recorded c ->
                    last_spike_recorded (run c events)) as G.
  { induction events as [|e rest IH]; intros c H; cbn; [exact H|].
    apply IH, last_spike_recorded_step, H. }
  apply G. cbn. split; reflexivity.
Qed.

Lemma step_Frame_spike_cells (c : Component) :
  spikeCount (step c Frame) = spikeCount c /\
  spikeTimes (step c Frame) = spikeTimes c /\
  lastSpikeTimeRef (step c Frame) = lastSpikeTimeRef c.
Proof.
  unfold step. autorewrite with render. cbn [handle].
  unfold simulationLoop. destruct (isRunning c); cbn [negb];
    [|repeat split].
  destruct (tick_cells c) as (_ & L & _ & _ & _ & SC & ST & _).
  repeat split; assumption.
Qed.

(** X6: ticks never fire, record or forget a spike: whatever the
    potential and the threshold are, any number of animation frames
    leaves the spike count, the spike times and the last spike time as
    they were. *)
Theorem frames_never_spike (c : Component) (n : nat) :
  let c' := run c (repeat Frame n) in
  spikeCount c' = spikeCount c /\
  spikeTimes c' = spikeTimes c /\
  lastSpikeTimeRef c' = lastSpikeTimeRef c.
Proof.
  cbv zeta. unfold run. revert c.
  induction n as [|n IH]; intros c; cbn [repeat fold_left].
  - repeat split.
  - destruct (IH (step c Frame)) as (A & B & C).
    destruct (step_Frame_spike_cells c) as (A' & B' & C').
    repeat split; congruence.
Qed.

(** ** Stimuli that do not fire *)

Lemma num_geb_false_ltb (a b : Qc) :
  num_geb (Finite a) (Finite b) = false ->
  num_ltb (Finite a) (Finite b) = true.
Proof.
  unfold num_geb, num_leb, num_ltb, Qccompare.
  rewrite <- (Qcompare_antisym a b).
  destruct (a ?= b)%Q; cbn; congruence.
Qed.

Lemma sendSpike_step_outcome (c : Component) :
  thresholdRef c = threshold c ->
  (List.length (spikeTimes c) <= MAX_SPIKES_DISPLAY)%nat ->
  isRefractory c = false ->
  stimulus_outcome (spikeMagnitude c) c (step c ClickSendSpike).
Proof.
  intros Ht Hs Hm.
  apply (stimulus_outcome_snapshot _ c c
           (stimulusUpdater (spikeMagnitude c) c));
    [reflexivity| |apply stimulusUpdater_outcome; assumption].
  unfold step. rewrite snapshot_render. cbn [handle]. unfold sendSpike.
  rewrite Hm. reflexivity.
Qed.

Lemma custom_step_outcome (c : Component) (text : string) :
  thresholdRef c = threshold c ->
  (List.length (spikeTimes c) <= MAX_SPIKES_DISPLAY)%nat ->
  isNaN (parseFloat text) = false ->
  stimulus_outcome (parseFloat text) c (stimulateCustom text c).
Proof.
  intros Ht Hs Hnum. unfold stimulateCustom.
  rewrite step_ChangeCustomSpikeInput.
  set (typed := setCustomSpikeInput text c).
  apply (stimulus_outcome_snapshot _ typed c
           (stimulusUpdater (parseFloat text) typed));
    [reflexivity| |apply stimulusUpdater_outcome; assumption].
  unfold step. rewrite snapshot_render. cbn [handle].
  unfold handleCustomSpikeInput.
  change (customSpikeInput typed) with text. rewrite Hnum. reflexivity.
Qed.

Lemma outcome_fires_or_below (m : number) (c c' : Component) :
  isFinite (membranePotential c) = true ->
  isFinite (threshold c) = true ->
  isFinite m = true ->
  stimulus_outcome m c c' ->
  spikeCount c' = spikeCount c + 1 \/
  num_ltb (membranePotential c') (threshold c') = true.
Proof.
  intros Hp Ht Hm. unfold stimulus_outcome.
  destruct (isFinite_inv _ Hp) as (p & Ep).
  destruct (isFinite_inv _ Ht) as (t & Et).
  destruct (isFinite_inv _ Hm) as (q & ->).
  destruct (num_geb _ _) eqn:G.
  - intros ((_ & _ & S & _) & _). left. exact S.
  - intros ((P & T & _) & _). right. rewrite P, T.
    rewrite Ep, Et in *. cbn [num_add] in *.
    apply num_geb_false_ltb, G.
Qed.

(** X7: a stimulus that is applied never leaves the potential at or above
    the threshold without a spike.  With finite potential, threshold and
    magnitude, after a Send Spike click that passes the guard, and after
    any custom stimulus, either the spike count went up by one or the
    potential is strictly below the threshold. *)
Theorem applied_stimulus_fires_or_stays_below (events : list Event)
    (text : string) :
  let c := run initial events in
  isFinite (membranePotential c) = true ->
  isFinite (threshold c) = true ->
  (isFinite (spikeMagnitude c) = true -> isRefractory c = false ->
   let c' := step c ClickSendSpike in
   spikeCount c' = spikeCount c + 1 \/
   num_ltb (membranePotential c') (threshold c') = true) /\
  (isFinite (parseFloat text) = true ->
   let c' := stimulateCustom text c in
   spikeCount c' = spikeCount c + 1 \/
   num_ltb (membranePotential c') (threshold c') = true).
Proof.
  cbv zeta. intros Hp Ht.
  destruct (committed_reachable events) as [_ Hr _ _ _ Hs].
  split.
  - intros Hm Hmemo.
    apply (outcome_fires_or_below (spikeMagnitude (run initial events)));
      try assumption.
    apply sendSpike_step_outcome; assumption.
  - intros Hm.
    apply (outcome_fires_or_below (parseFloat text)); try assumption.
    apply custom_step_outcome; try assumption.
    destruct (parseFloat text); try discriminate; reflexivity.
Qed.

Lemma applied_stimulus_fires_or_stays_below_witness :
  let c := run initial [ClickSendSpike] in
  isFinite (membranePotential c) = true /\
  (spikeCount (step c ClickSendSpike) = spikeCount c + 1 \/
   num_ltb (membranePotential (step c ClickSendSpike))
     (threshold (step c ClickSendSpike)) = true) /\
  (spikeCount (stimulateCustom "0.25" c) = spikeCount c + 1 \/
   num_ltb (membranePotential (stimulateCustom "0.25" c))
     (threshold (stimulateCustom "0.25" c)) = true).
Proof.
  cbv zeta.
  assert (isFinite (membranePotential (run initial [ClickSendSpike])) = true)
    as Hp by (vm_compute; reflexivity).
  assert (isFinite (threshold (run initial [ClickSendSpike])) = true)
    as Ht by (vm_compute; reflexivity).
  assert (isFinite (spikeMagnitude (run initial [ClickSendSpike])) = true)
    as Hm by (vm_compute; reflexivity).
  assert (isRefractory (run initial [ClickSendSpike]) = false)
    as Hr by (vm_compute; reflexivity).
  assert (isFinite (parseFloat "0.25") = true)
    as Hc by (vm_compute; reflexivity).
  destruct (applied_stimulus_fires_or_stays_below [ClickSendSpike] "0.25"
              Hp Ht) as (S1 & S2).
  split; [exact Hp|]. split; [exact (S1 Hm Hr) | exact (S2 Hc)].
Defined.

(** ** The chart ceiling *)

Lemma num_ltb_Finite (a b : Qc) :
  num_ltb (Finite a) (Finite b) = true <-> (a < b)%Qc.
Proof.
  simpl; rewrite Qclt_alt.
  destruct (a ?= b)%Qc; split; intros; congruence.
Qed.

Lemma Math_max_upper (a b : Qc) :
  num_leb (Finite b) (Math_max (Finite a) (Finite b)) = true.
Proof.
  rewrite Math_max_Finite.
  destruct (num_leb (Finite a) (Finite b)) eqn:E; [apply num_leb_refl|].
  apply num_leb_Finite, Qclt_le_weak, Qcnot_le_lt.
  intros H. apply num_leb_Finite in H. congruence.
Qed.

Lemma Qclt_succ (t : Qc) : (t < t + Q2Qc (inject_Z 1))%Qc.
Proof.
  apply Qclt_minus_iff.
  replace (t + Q2Qc (inject_Z 1) + - t)%Qc with (Q2Qc (inject_Z 1))
    by ring.
  reflexivity.
Qed.

(** X8: with finite slider values the chart's y axis always covers the
    threshold line: [yMax] is a finite number, at least 5, and strictly
    above the threshold. *)
Theorem chart_ceiling_covers_threshold (events : list Event) :
  forallb finite_config events = true ->
  let c := run initial events in
  isFinite (yMax c) = true /\
  num_geb (yMax c) (of_Z 5) = true /\
  num_ltb (threshold c) (yMax c) = true.
Proof.
  intros H. cbv zeta.
  destruct (threshold_finite_run events initial H threshold_finite_initial)
    as [Ht _ _].
  destruct (isFinite_inv _ Ht) as (t & Et).
  unfold yMax, num_geb, of_Z. rewrite Et. cbn [num_add].
  split; [rewrite Math_max_Finite; reflexivity|].
  split; [apply Math_max_upper|].
  pose proof (Math_max_lower (t + Q2Qc (inject_Z 1)) (Q2Qc (inject_Z 5)))
    as L.
  rewrite Math_max_Finite in *. apply num_leb_Finite in L.
  apply num_ltb_Finite.
  eapply Qclt_le_trans; [apply Qclt_succ | exact L].
Qed.

Lemma chart_ceiling_covers_threshold_witness :
  let events :=
    [ChangeMinThreshold (dec 5 2); Frame; ClickSendSpike; Frame] in
  forallb finite_config events = true /\
  num_ltb (threshold (run initial events)) (yMax (run initial events))
  = true.
Proof.
  cbv zeta.
  assert (forallb finite_config
            [ChangeMinThreshold (dec 5 2); Frame; ClickSendSpike; Frame]
          = true) as H by (vm_compute; reflexivity).
  split; [exact H|].
  apply (chart_ceiling_covers_threshold _ H).
Defined.

(** ** The refractory window *)

Lemma frames_after_spike (s : Z) (n : nat) (c : Component) :
  isRunning c = true -> lastSpikeTimeRef c = Some s ->
  let cn := run c (repeat Frame n) in
  isRunning cn = true /\
  time cn = time c + Z.of_nat n /\
  lastSpikeTimeRef cn = Some s /\
  (time c + Z.of_nat n - s < refractoryPeriod -> threshold cn = threshold c).
Proof.
  cbv zeta. unfold run. revert c.
  induction n as [|n IH]; intros c R L; cbn [repeat fold_left].
  - repeat split; try assumption. cbn. lia.
  - destruct (frame_threshold c R) as (R1 & T1 & L1 & _ & _ & Th1).
    rewrite L in L1.
    destruct (IH (step c Frame) R1 L1) as (Rn & Tn & Ln & Thn).
    repeat split; try assumption; [lia|].
    intros W. rewrite Thn by lia. rewrite Th1.
    unfold refractory, computeIsRefractory. rewrite L1, T1.
    destruct (Z.ltb_spec (time c + 1 - s) refractoryPeriod); [reflexivity|lia].
Qed.

(** X9: the refractory period lasts exactly five ticks.  After a spike at
    the current time, [n] ticks later the time has advanced by [n], the
    neuron is refractory exactly when [n < 5], and for [n <= 4] the
    threshold still has the value the spike gave it. *)
Theorem refractory_lasts_five_ticks (c : Component) (n : nat) :
  isRunning c = true ->
  lastSpikeTimeRef c = Some (time c) ->
  let cn := run c (repeat Frame n) in
  time cn = time c + Z.of_nat n /\
  refractory cn = (Z.of_nat n <? refractoryPeriod) /\
  ((n <= 4)%nat -> threshold cn = threshold c).
Proof.
  intros R L. cbv zeta.
  destruct (frames_after_spike (time c) n c R L) as (_ & T & Ln & Th).
  split; [exact T|]. split.
  - unfold refractory, computeIsRefractory. rewrite Ln, T.
    f_equal. lia.
  - intros W. apply Th. unfold refractoryPeriod. lia.
Qed.

Lemma refractory_lasts_five_ticks_witness :
  let c := run initial [ClickSendSpike; ClickSendSpike] in
  isRunning c = true /\ lastSpikeTimeRef c = Some (time c) /\
  refractory (run c (repeat Frame 4)) = true /\
  refractory (run c (repeat Frame 5)) = false.
Proof.
  cbv zeta.
  assert (isRunning (run initial [ClickSendSpike; ClickSendSpike]) = true)
    as R by (vm_compute; reflexivity).
  assert (lastSpikeTimeRef (run initial [ClickSendSpike; ClickSendSpike])
          = Some (time (run initial [ClickSendSpike; ClickSendSpike])))
    as L by (vm_compute; reflexivity).
  split; [exact R|]. split; [exact L|]. split.
  - apply (refractory_lasts_five_ticks _ 4 R L).
  - apply (refractory_lasts_five_ticks _ 5 R L).
Defined.

(** ** Reset, again *)

Lemma Component_ext (a b : Component) :
  membranePotential a = membranePotential b ->
  threshold a = threshold b ->
  time a = time b ->
  dataPoints a = dataPoints b ->
  spikeCount a = spikeCount b ->
  spikeTimes a = spikeTimes b ->
  isRunning a = isRunning b ->
  decayRate a = decayRate b ->
  thresholdDecayRate a = thresholdDecayRate b ->
  minThreshold a = minThreshold b ->
  spikeMagnitude a = spikeMagnitude b ->
  customSpikeInput a = customSpikeInput b ->
  membranePotentialRef a = membranePotentialRef b ->
  thresholdRef a = thresholdRef b ->
  lastSpikeTimeRef a = lastSpikeTimeRef b ->
  isRefractory a = isRefractory b ->
  a = b.
Proof. destruct a, b; cbn; intros; subst; reflexivity. Qed.


(** X10: in every state of a run from mount, Reset gives back the mount
    state in every cell it owns, mirror refs and memo included; only the
    four configuration cells, the running flag and the custom text keep
    their values.  A second Reset changes nothing. *)
Theorem reset_is_fresh_mount (events : list Event) :
  let c := run initial events in
  step c ClickReset = freshWith c /\
  step (step c ClickReset) ClickReset = step c ClickReset.
Proof.
  cbv zeta.
  destruct (committed_reachable events) as [Hp Ht _ Hm0 _ _].
  set (c := run initial events) in *.
  assert (step c ClickReset = freshWith c) as E.
  { apply Component_ext; unfold step;
      rewrite ?render_membranePotentialRef, ?render_thresholdRef,
        ?render_isRefractory;
      autorewrite with render; cbn [handle]; unfold resetSimulation; cbn;
      try reflexivity.
    - destruct (Object_is (membranePotential c) (of_Z 0)) eqn:P;
        [|reflexivity].
      apply Object_is_eq in P. congruence.
    - destruct (Object_is (threshold c) (dec 1 1)) eqn:Th; [|reflexivity].
      apply Object_is_eq in Th. congruence.
    - destruct (Z.eqb_spec (time c) 0) as [T0|T0]; [auto|reflexivity]. }
  split; [exact E|].
  rewrite E. unfold step. cbn [handle].
  apply render_unchanged; reflexivity.
Qed.

(** ** The custom input after a stimulus *)

(** X11: an accepted custom stimulus clears the input, so a second click
    on Send Custom Spike without typing again changes nothing. *)
Theorem custom_input_cleared_after_stimulus (c : Component) (text : string) :
  isNaN (parseFloat text) = false ->
  let c' := stimulateCustom text c in
  customSpikeInput c' = EmptyString /\
  step c' ClickSendCustomSpike = c'.
Proof.
  intros H. cbv zeta.
  assert (customSpikeInput (stimulateCustom text c) = EmptyString) as E.
  { unfold stimulateCustom. rewrite step_ChangeCustomSpikeInput.
    unfold step. autorewrite with render. cbn [handle].
    unfold handleCustomSpikeInput.
    cbn [customSpikeInput setCustomSpikeInput]. rewrite H. reflexivity. }
  split; [exact E|].
  unfold step at 1. cbn [handle]. unfold handleCustomSpikeInput.
  rewrite E. cbn. apply render_same.
Qed.

Lemma custom_input_cleared_after_stimulus_witness :
  isNaN (parseFloat "0.25") = false /\
  step (stimulateCustom "0.25" initial) ClickSendCustomSpike
  = stimulateCustom "0.25" initial.
Proof.
  assert (isNaN (parseFloat "0.25") = false) as H
    by (vm_compute; reflexivity).
  split; [exact H|].
  apply (custom_input_cleared_after_stimulus initial "0.25" H).
Defined.

(** ** The times of the data points *)

Lemma countdown_app (t : Z) (a b : list Z) :
  countdown t (a ++ b) -> countdown t a.
Proof.
  revert t. induction a as [|x a IH]; intros t; cbn; [trivial|].
  intros [E H]. split; [exact E | apply IH, H].
Qed.

Lemma countdown_rev_skipn (t : Z) (k : nat) (l : list Z) :
  countdown t (rev l) -> countdown t (rev (skipn k l)).
Proof.
  rewrite <- (firstn_skipn k l) at 1. rewrite rev_app_distr.
  apply countdown_app.
Qed.

Lemma data_times_step (c : Component) (e : Event) :
  countdown (time c) (rev (map DataPoint.time (dataPoints c))) ->
  countdown (time (step c e))
    (rev (map DataPoint.time (dataPoints (step c e)))).
Proof.
  intros H. unfold step. autorewrite with render.
  destruct (Event_is_reset e) as [-> | Hne]; [cbn; trivial|].
  destruct (handle_history_cases c e Hne) as (_ & [(T & D) | (T & D)]);
    rewrite T, D; [exact H|].
  unfold slice_last. rewrite <- skipn_map.
  apply countdown_rev_skipn.
  rewrite map_app, rev_app_distr. cbn.
  unfold timeStep. split; [reflexivity|].
  replace (time c + 1 - 1) with (time c) by lia. exact H.
Qed.

(** X12: the retained data points carry consecutive times that end at the
    current time: read from the newest to the oldest they are [time],
    [time - 1], [time - 2], and so on, so the chart's x axis has no gap
    and no repeated tick. *)
Theorem data_points_have_consecutive_times (events : list Event) :
  let c := run initial events in
  countdown (time c) (rev (map DataPoint.time (dataPoints c))).
Proof.
  cbv zeta.
  assert (forall c,
            countdown (time c) (rev (map DataPoint.time (dataPoints c))) ->
            countdown (time (run c events))
              (rev (map DataPoint.time (dataPoints (run c events))))) as G.
  { induction events as [|e rest IH]; intros c H; cbn; [exact H|].
    apply IH, data_times_step, H. }
  apply G. cbn. trivial.
Qed.

(** ** Decay over several ticks *)

Lemma num_leb_Finite_false (a b : Qc) :
  num_leb (Finite a) (Finite b) = false <-> ~ (a <= b)%Qc.
Proof.
  rewrite <- num_leb_Finite. destruct (num_leb _ _); split; congruence.
Qed.

(** Taking a rate that is not negative away does not raise a number. *)
Lemma num_leb_sub_nonneg (x r : Qc) :
  num_leb (of_Z 0) (Finite r) = true ->
  num_leb (num_sub (Finite x) (Finite r)) (Finite x) = true.
Proof.
  unfold of_Z. intros Hr. apply num_leb_Finite in Hr.
  cbn [num_sub num_neg num_add]. apply num_leb_Finite.
  revert Hr. unfold Qcle, Qcplus, Qcopp, Q2Qc. cbn [this].
  rewrite !Qred_correct. change (inject_Z 0) with 0%Q. intros. lra.
Qed.

(** One decay does not raise a potential that is not negative. *)
Lemma decay_below (p d : Qc) :
  num_leb (of_Z 0) (Finite p) = true ->
  num_leb (of_Z 0) (Finite d) = true ->
  num_leb
    (Math_max (of_Z 0)
       (num_sub (Finite p) (num_mul (Finite d) (of_Z timeStep))))
    (Finite p) = true.
Proof.
  intros Hp Hd. unfold of_Z at 2, timeStep. cbn [num_mul].
  replace (d * Q2Qc (inject_Z 1))%Qc with d by (symmetry; apply Qcmult_1_r).
  pose proof (num_leb_sub_nonneg p d Hd) as L.
  cbn [num_sub num_neg num_add] in *. unfold of_Z in *.
  rewrite Math_max_Finite.
  destruct (num_leb (Finite (Q2Qc (inject_Z 0))) (Finite (p + - d)));
    assumption.
Qed.

Lemma frame_potential (c : Component) :
  isRunning c = true ->
  isRunning (step c Frame) = true /\
  decayRate (step c Frame) = decayRate c /\
  membranePotential (step c Frame) =
    Math_max (of_Z 0)
      (num_sub (membranePotential c)
         (num_mul (decayRate c) (of_Z timeStep))).
Proof.
  intros R. rewrite step_Frame by exact R. autorewrite with render.
  destruct (tick_cells c) as (_ & _ & _ & P & _ & _ & _ & Rn & D & _).
  rewrite Rn, D, P, R. repeat split.
Qed.

(** X13: the leak never adds charge.  In a running simulation with a
    potential and a decay rate that are finite and not negative, after
    [n] ticks without a stimulus the potential is finite, not negative,
    and at most what it was. *)
Theorem potential_falls_in_frames (n : nat) (c : Component) :
  isRunning c = true ->
  finite_nonneg (membranePotential c) = true ->
  finite_nonneg (decayRate c) = true ->
  let c' := run c (repeat Frame n) in
  finite_nonneg (membranePotential c') = true /\
  num_leb (membranePotential c') (membranePotential c) = true.
Proof.
  cbv zeta. unfold run. revert c.
  induction n as [|n IH]; intros c R Hp Hd; cbn [repeat fold_left].
  - split; [exact Hp|].
    destruct (finite_nonneg_inv _ Hp) as (p & -> & _). apply num_leb_refl.
  - destruct (frame_potential c R) as (R1 & D1 & P1).
    destruct (finite_nonneg_inv _ Hp) as (p & Ep & Lp).
    destruct (finite_nonneg_inv _ Hd) as (d & Ed & Ld).
    assert (finite_nonneg (membranePotential (step c Frame)) = true) as Hp1
      by (rewrite P1, Ep, Ed; apply finite_nonneg_decay).
    assert (num_leb (membranePotential (step c Frame)) (membranePotential c)
            = true) as L1
      by (rewrite P1, Ep, Ed; apply decay_below; assumption).
    destruct (IH (step c Frame) R1 Hp1) as (Hn & Ln);
      [rewrite D1; exact Hd|].
    split; [exact Hn|].
    destruct (finite_nonneg_inv _ Hn) as (q & Eq & _).
    destruct (finite_nonneg_inv _ Hp1) as (p1 & Ep1 & _).
    rewrite Eq, Ep1, Ep in *. eapply num_leb_trans; eassumption.
Qed.

Lemma potential_falls_in_frames_witness :
  let c := run initial [ClickSendSpike] in
  isRunning c = true /\
  finite_nonneg (membranePotential (run c (repeat Frame 7))) = true /\
  num_leb (membranePotential (run c (repeat Frame 7))) (membranePotential c)
  = true.
Proof.
  cbv zeta.
  assert (isRunning (run initial [ClickSendSpike]) = true) as R
    by (vm_compute; reflexivity).
  assert (finite_nonneg (membranePotential (run initial [ClickSendSpike]))
          = true) as Hp by (vm_compute; reflexivity).
  assert (finite_nonneg (decayRate (run initial [ClickSendSpike])) = true)
    as Hd by (vm_compute; reflexivity).
  split; [exact R|].
  exact (potential_falls_in_frames 7 _ R Hp Hd).
Defined.

(** ** Animation frames: one pending callback, always the current loop *)

Lemma sameLoop_refl (l : Loop) : sameLoop l l = true.
Proof.
  unfold sameLoop. rewrite Bool.eqb_reflx, !Object_is_refl. reflexivity.
Qed.

Lemma sameLoop_eq (a b : Loop) : sameLoop a b = true -> a = b.
Proof.
  unfold sameLoop. rewrite !andb_true_iff.
  intros (((R & D) & T) & M).
  apply Bool.eqb_prop in R.
  apply Object_is_eq in D. apply Object_is_eq in T. apply Object_is_eq in M.
  destruct a, b; cbn in *. congruence.
Qed.

Lemma withLoop_capture (c : Component) : withLoop (captureLoop c) c = c.
Proof. destruct c; reflexivity. Qed.

Lemma restoreRates_tick (c : Component) : restoreRates c (tick c) = tick c.
Proof.
  destruct (tick_cells c)
    as (_ & _ & _ & _ & _ & _ & _ & _ & D & T & M & _).
  unfold restoreRates. rewrite <- D, <- T, <- M.
  destruct (tick c); reflexivity.
Qed.

Lemma captureLoop_tick (c : Component) :
  captureLoop (tick c) = captureLoop c.
Proof.
  destruct (tick_cells c)
    as (_ & _ & _ & _ & _ & _ & _ & R & D & T & M & _).
  unfold captureLoop. congruence.
Qed.

Lemma captureLoop_render (prev next : Component) :
  captureLoop (render prev next) = captureLoop next.
Proof. unfold captureLoop. autorewrite with render. reflexivity. Qed.

Lemma cancelPendingFrame_clears (c : Component) (p : Page) :
  pending_for c p ->
  frameCallbacks (cancelPendingFrame p) = [] /\
  component (cancelPendingFrame p) = component p /\
  simulationLoopFn (cancelPendingFrame p) = simulationLoopFn p /\
  nextHandle (cancelPendingFrame p) = nextHandle p.
Proof.
  intros (Hr & Hp & _). unfold cancelPendingFrame.
  destruct (isRunning c) eqn:R.
  - destruct (Hr eq_refl) as (h & Ref & Cb). rewrite Ref. cbn [truthy].
    unfold cancelAnimationFrame. rewrite Cb. cbn.
    rewrite Nat.eqb_refl. cbn. repeat split.
  - specialize (Hp eq_refl).
    destruct (animationFrameRef p) as [h|]; [|auto].
    destruct (truthy (Some h)); [|auto].
    unfold cancelAnimationFrame. rewrite Hp. cbn. repeat split.
Qed.

Lemma frameEffect_schedules (p : Page) :
  frameCallbacks p = [] -> nextHandle p <> 0%nat ->
  simulationLoopFn p = captureLoop (component p) ->
  pending_for (component p) (frameEffect p) /\
  component (frameEffect p) = component p /\
  simulationLoopFn (frameEffect p) = simulationLoopFn p.
Proof.
  intros Cb Nh L. unfold frameEffect.
  destruct (isRunning (component p)) eqn:R.
  - unfold scheduleFrame, requestAnimationFrame, pending_for. cbn.
    rewrite Cb, L, R. cbn. repeat split; try discriminate.
    intros _. destruct (nextHandle p) as [|h]; [congruence|].
    exists h. split; reflexivity.
  - unfold pending_for.
    assert (pending_for (component p) p) as P.
    { unfold pending_for. rewrite R. repeat split; try discriminate; auto. }
    destruct (cancelPendingFrame_clears _ _ P) as (C1 & C2 & C3 & C4).
    rewrite C2, C3, C4, R. repeat split; try discriminate; auto.
Qed.

(** The updates of one event, before the render: the component has run
    the event's callback, and the pending callbacks are still those of
    the component before the event. *)
Lemma event_updates (p : Page) (e : Event) :
  scheduled p ->
  let next :=
    match e with
    | Frame =>
        fold_left (fun q hc => callSimulationLoop (snd hc) q)
          (frameCallbacks p) (setFrameCallbacks [] p)
    | _ => setComponent (handle (component p) e) p
    end in
  component next = handle (component p) e /\
  simulationLoopFn next = simulationLoopFn p /\
  pending_for (component p) next.
Proof.
  intros [L Hr Hp Nh]. cbv zeta.
  assert (pending_for (component p) p) as P
    by (unfold pending_for; auto).
  destruct e;
    try (split; [reflexivity | split; [reflexivity | exact P]]).
  cbn [handle]. unfold simulationLoop.
  destruct (isRunning (component p)) eqn:R; cbn [negb].
  - destruct (Hr eq_refl) as (h & Ref & Cb). rewrite Cb.
    cbn [fold_left snd]. unfold callSimulationLoop.
    cbn [captureLoop loop_isRunning]. rewrite R. cbn [negb].
    cbn [component setFrameCallbacks].
    rewrite withLoop_capture, restoreRates_tick.
    unfold scheduleFrame, requestAnimationFrame, pending_for. cbn.
    rewrite R. repeat split; try discriminate.
    intros _. destruct (nextHandle p) as [|h']; [congruence|].
    exists h'. split; reflexivity.
  - rewrite (Hp eq_refl). cbn. repeat split.
    unfold pending_for. cbn. rewrite R.
    repeat split; try discriminate; auto.
    exact Nh.
Qed.

Lemma pageStep_scheduled (p : Page) (e : Event) :
  scheduled p ->
  scheduled (pageStep p e) /\
  component (pageStep p e) = step (component p) e.
Proof.
  intros S. destruct (event_updates p e S) as (C & Lf & (Pr & Pp & Pn)).
  destruct S as [L _ _ _].
  unfold pageStep, pageRender.
  set (next := match e with
               | Frame => _
               | _ => _
               end) in *.
  rewrite C. fold (step (component p) e).
  set (c := component p) in *. set (c' := step c e).
  destruct (sameLoop (simulationLoopFn p) (captureLoop c')) eqn:Same.
  - apply sameLoop_eq in Same.
    assert (isRunning c' = isRunning c) as R
      by (rewrite L in Same; unfold captureLoop in Same; congruence).
    rewrite R, Bool.eqb_reflx, sameLoop_refl. cbn [andb].
    split; [|reflexivity].
    constructor; cbn; rewrite ?R.
    + exact Same.
    + intros Run. destruct (Pr Run) as (h & Ref & Cb). exists h.
      rewrite <- Same, L. auto.
    + exact Pp.
    + exact Pn.
  - rewrite Same, andb_false_r.
    set (p1 := setSimulationLoopFn (captureLoop c') (setComponent c' next)).
    assert (pending_for c p1) as P1 by (unfold pending_for; cbn; auto).
    destruct (cancelPendingFrame_clears c p1 P1) as (C1 & C2 & C3 & C4).
    unfold frameEffectCleanup.
    destruct (frameEffect_schedules (cancelPendingFrame p1))
      as ((Fr & Fp & Fn) & Fc & Fl).
    + exact C1.
    + rewrite C4. exact Pn.
    + rewrite C2, C3. reflexivity.
    + rewrite C2 in *. cbn in Fc, Fr, Fp.
      split; [|exact Fc].
      constructor; rewrite ?Fc, ?Fl, ?C3; auto.
Qed.

Lemma scheduled_mount : scheduled mount /\ component mount = initial.
Proof.
  split; [|reflexivity].
  constructor; cbn; try reflexivity; try discriminate.
  intros _. exists 0%nat. split; reflexivity.
Qed.

Lemma pageRun_scheduled (events : list Event) (p : Page) :
  scheduled p ->
  scheduled (pageRun p events) /\
  component (pageRun p events) = run (component p) events.
Proof.
  revert p. induction events as [|e rest IH]; intros p S; cbn.
  - split; [exact S | reflexivity].
  - destruct (pageStep_scheduled p e S) as (S' & C).
    destruct (IH _ S') as (S'' & C'). split; [exact S''|].
    unfold pageRun in C'. rewrite C', C. reflexivity.
Qed.

(** X14: the browser never holds more than one pending animation frame
    callback.  After every sequence of events from mount there is exactly
    one while the simulation runs, namely the [simulationLoop] of the
    current render, stored under the handle in [animationFrameRef], and
    none while it is paused. *)
Theorem one_pending_frame_while_running (events : list Event) :
  let p := pageRun mount events in
  exists handle,
    frameCallbacks p =
      (if isRunning (component p)
       then [(S handle, captureLoop (component p))] else []) /\
    (if isRunning (component p)
     then animationFrameRef p = Some (S handle) else True).
Proof.
  cbv zeta.
  destruct (pageRun_scheduled events mount (proj1 scheduled_mount))
    as ([_ Hr Hp _] & _).
  destruct (isRunning (component (pageRun mount events))) eqn:R.
  - destruct (Hr eq_refl) as (h & Ref & Cb). exists h. auto.
  - exists 0%nat. auto.
Qed.

(** X15: the page, with its scheduling through [requestAnimationFrame],
    the effect cleanup and the memoised callback, drives the component
    exactly as the events say: after every sequence of events the
    component is the one [run] computes, where each animation frame is
    one [simulationLoop] call with the values of the current render.  No
    tick is lost or doubled, none runs while paused, and none uses slider
    values of an earlier render. *)
Theorem page_drives_component_as_run (events : list Event) :
  component (pageRun mount events) = run initial events.
Proof.
  apply (pageRun_scheduled events mount (proj1 scheduled_mount)).
Qed.

(** ** A tick repairs a negative potential *)

(** X16: whatever a stimulus left behind, one tick of the running
    simulation with a finite potential and a finite decay rate leaves a
    potential that is finite and not negative. *)
Theorem tick_clamps_potential (c : Component) :
  isRunning c = true ->
  isFinite (membranePotential c) = true ->
  isFinite (decayRate c) = true ->
  finite_nonneg (membranePotential (step c Frame)) = true.
Proof.
  intros R Hp Hd.
  destruct (frame_potential c R) as (_ & _ & P). rewrite P.
  destruct (isFinite_inv _ Hp) as (p & ->).
  destruct (isFinite_inv _ Hd) as (d & ->).
  apply finite_nonneg_decay.
Qed.

Lemma tick_clamps_potential_witness :
  let c := stimulateCustom "-1" initial in
  isRunning c = true /\
  num_geb (membranePotential c) (of_Z 0) = false /\
  finite_nonneg (membranePotential (step c Frame)) = true.
Proof.
  cbv zeta.
  assert (isRunning (stimulateCustom "-1" initial) = true) as R
    by (vm_compute; reflexivity).
  assert (isFinite (membranePotential (stimulateCustom "-1" initial)) = true)
    as Hp by (vm_compute; reflexivity).
  assert (isFinite (decayRate (stimulateCustom "-1" initial)) = true)
    as Hd by (vm_compute; reflexivity).
  split; [exact R|]. split; [vm_compute; reflexivity|].
  apply (tick_clamps_potential _ R Hp Hd).
Defined.

(** ** Threshold relaxation over several ticks *)

(** One relaxation keeps a threshold between its floor and its value. *)
Lemma relax_between (m t r : Qc) :
  num_leb (Finite m) (Finite t) = true ->
  num_leb (of_Z 0) (Finite r) = true ->
  num_leb (Math_max (Finite m) (num_sub (Finite t) (Finite r))) (Finite t)
  = true.
Proof.
  intros Hm Hr. pose proof (num_leb_sub_nonneg t r Hr) as L.
  cbn [num_sub num_neg num_add] in *. rewrite Math_max_Finite.
  destruct (num_leb (Finite m) (Finite (t + - r))); assumption.
Qed.

(** X17: ticks never raise the threshold.  In a running simulation with
    a finite threshold at or above a finite floor and a relaxation rate
    that is finite and not negative, after [n] ticks without a stimulus
    the threshold is finite, at least the floor, and at most what it
    was. *)
Theorem threshold_falls_in_frames (n : nat) (c : Component) :
  isRunning c = true ->
  isFinite (threshold c) = true ->
  isFinite (minThreshold c) = true ->
  finite_nonneg (thresholdDecayRate c) = true ->
  floor_ok c = true ->
  let c' := run c (repeat Frame n) in
  isFinite (threshold c') = true /\
  num_leb (minThreshold c) (threshold c') = true /\
  num_leb (threshold c') (threshold c) = true.
Proof.
  cbv zeta. unfold run. revert c.
  induction n as [|n IH]; intros c R Ht Hm Hr Hf;
    cbn [repeat fold_left];
    destruct (isFinite_inv _ Ht) as (t & Et);
    destruct (isFinite_inv _ Hm) as (m & Em);
    destruct (finite_nonneg_inv _ Hr) as (r & Er & Lr);
    unfold floor_ok, num_geb in Hf.
  - split; [exact Ht|]. split; [exact Hf|]. rewrite Et. apply num_leb_refl.
  - destruct (frame_threshold c R) as (R1 & _ & _ & M1 & D1 & Th1).
    cbv zeta in Th1.
    assert (isFinite (threshold (step c Frame)) = true /\
            num_leb (minThreshold c) (threshold (step c Frame)) = true /\
            num_leb (threshold (step c Frame)) (threshold c) = true)
      as (Ht1 & Lo1 & Hi1).
    { rewrite Th1. destruct (refractory (step c Frame)).
      - split; [exact Ht|]. split; [exact Hf|].
        rewrite Et. apply num_leb_refl.
      - rewrite Et, Em, Er in *. split; [apply isFinite_relaxed|].
        split; [apply floor_relaxed | apply relax_between; assumption]. }
    destruct (IH (step c Frame) R1 Ht1) as (Htn & Lon & Hin).
    + rewrite M1. exact Hm.
    + rewrite D1. exact Hr.
    + unfold floor_ok, num_geb. rewrite M1. exact Lo1.
    + rewrite M1 in Lon. split; [exact Htn|]. split; [exact Lon|].
      destruct (isFinite_inv _ Htn) as (tn & Etn).
      destruct (isFinite_inv _ Ht1) as (t1 & Et1).
      rewrite Etn, Et1, Et in *. eapply num_leb_trans; eassumption.
Qed.

Lemma threshold_falls_in_frames_witness :
  let c := run initial [ClickSendSpike; ClickSendSpike; Frame; Frame] in
  isRunning c = true /\
  isFinite (threshold (run c (repeat Frame 9))) = true /\
  num_leb (minThreshold c) (threshold (run c (repeat Frame 9))) = true /\
  num_leb (threshold (run c (repeat Frame 9))) (threshold c) = true.
Proof.
  cbv zeta.
  set (c := run initial [ClickSendSpike; ClickSendSpike; Frame; Frame]).
  assert (isRunning c = true) as R by (vm_compute; reflexivity).
  assert (isFinite (threshold c) = true) as Ht by (vm_compute; reflexivity).
  assert (isFinite (minThreshold c) = true) as Hm
    by (vm_compute; reflexivity).
  assert (finite_nonneg (thresholdDecayRate c) = true) as Hr
    by (vm_compute; reflexivity).
  assert (floor_ok c = true) as Hf by (vm_compute; reflexivity).
  split; [exact R|].
  exact (threshold_falls_in_frames 9 c R Ht Hm Hr Hf).
Defined.
